(** * earthengine-ts: a shallow embedding of the client and helper modules

    The package wraps the callback-based Earth Engine client in promise
    returning functions ([src/client.ts]) and in forwarding helpers
    ([src/helpers/geometry.ts], [src/helpers/images.ts],
    [src/helpers/exports.ts]).  Every function of those modules is
    translated below into a computation of a small monad that threads the
    state of the wrapped library, records each call that crosses the
    boundary to it, and ends by returning, throwing, or never settling.

    The wrapped library itself is not part of the package: it appears as a
    [runtime], a record of oracles that answer each call. *)

From Stdlib Require Import Ascii String.
From stdpp Require Import gmap strings list fin_maps.

Set Warnings "-register-all".
#[local] Open Scope string_scope.
#[local] Open Scope list_scope.

(** ** JavaScript values *)

(** Numbers are the integers and [NaN]; that is all the package can tell
    apart (it only tests them for truthiness).  Objects the package builds
    or reads field by field are [VObj]; objects owned by the wrapped library
    are opaque [VHandle]s; functions handed in by the caller are [VFun];
    the arrow functions the package itself passes to the library are
    [VLambda], with the values they close over. *)
Inductive jsval : Type :=
| VUndefined
| VNull
| VBool (b : bool)
| VNum (n : Z)
| VNaN
| VStr (s : string)
| VArr (items : list jsval)
| VObj (fields : gmap string jsval)
| VError (msg : string)
| VFun (id : nat)
| VLambda (src : string) (captured : list jsval)
| VHandle (id : nat).

(** [if (v)], [v && w], [v || w], [v ? a : b] *)
Definition truthy (v : jsval) : bool :=
  match v with
  | VUndefined | VNull | VNaN => false
  | VBool b => b
  | VNum n => negb (n =? 0)%Z
  | VStr s => negb (String.eqb s "")
  | _ => true
  end.

(** [typeof v] *)
Definition typeof (v : jsval) : string :=
  match v with
  | VUndefined => "undefined"
  | VBool _ => "boolean"
  | VNum _ | VNaN => "number"
  | VStr _ => "string"
  | VFun _ | VLambda _ _ => "function"
  | VNull | VArr _ | VObj _ | VError _ | VHandle _ => "object"
  end.

(** [v || w] *)
Definition js_or (v w : jsval) : jsval := if truthy v then v else w.

(** Destructuring [const { k } = options] and reading [options.k] on a
    plain record: a missing key reads as [undefined]. *)
Definition get (o : gmap string jsval) (k : string) : jsval :=
  default VUndefined (o !! k).

(** Destructuring with a default, [const { k = d } = options]: the default
    replaces [undefined] only. *)
Definition get_default (o : gmap string jsval) (k : string) (d : jsval) : jsval :=
  match get o k with
  | VUndefined => d
  | v => v
  end.

(** [exportOptions.k = v] *)
Definition set (k : string) (v : jsval) (o : gmap string jsval) : gmap string jsval :=
  <[k := v]> o.

(** [if (v) exportOptions.k = v;] *)
Definition set_if_truthy (k : string) (v : jsval) (o : gmap string jsval)
  : gmap string jsval :=
  if truthy v then set k v o else o.

(** *** [String.prototype.trim]

    A text is held as the bytes of its UTF-8 encoding.  [trim] removes the
    white space of ECMAScript from both ends: the code points of
    [WhiteSpace] and [LineTerminator], which are tab, line feed, vertical
    tab, form feed, carriage return, space, U+00A0, U+1680, U+2000 to
    U+200A, U+2028, U+2029, U+202F, U+205F, U+3000 and U+FEFF. *)
Definition utf8 (bytes : list nat) : string :=
  string_of_list_ascii (map ascii_of_nat bytes).

Definition white_space : list string :=
  [ utf8 [9]; utf8 [10]; utf8 [11]; utf8 [12]; utf8 [13]; utf8 [32];
    utf8 [194; 160];
    utf8 [225; 154; 128];
    utf8 [226; 128; 128]; utf8 [226; 128; 129]; utf8 [226; 128; 130];
    utf8 [226; 128; 131]; utf8 [226; 128; 132]; utf8 [226; 128; 133];
    utf8 [226; 128; 134]; utf8 [226; 128; 135]; utf8 [226; 128; 136];
    utf8 [226; 128; 137]; utf8 [226; 128; 138];
    utf8 [226; 128; 168]; utf8 [226; 128; 169];
    utf8 [226; 128; 175];
    utf8 [226; 129; 159];
    utf8 [227; 128; 128];
    utf8 [239; 187; 191] ].

(** [t] is one white-space code point. *)
Definition is_white_space (t : string) : bool :=
  existsb (String.eqb t) white_space.

(** A white-space code point takes one, two or three bytes. *)
Fixpoint trimStart (s : string) : string :=
  match s with
  | EmptyString => EmptyString
  | String a rest1 =>
      if is_white_space (String a EmptyString) then trimStart rest1
      else
        match rest1 with
        | EmptyString => s
        | String b rest2 =>
            if is_white_space (String a (String b EmptyString))
            then trimStart rest2
            else
              match rest2 with
              | EmptyString => s
              | String c rest3 =>
                  if is_white_space
                       (String a (String b (String c EmptyString)))
                  then trimStart rest3
                  else s
              end
        end
  end.

(** From the end: what is left of [s] once its tail is trimmed is dropped
    as well if it is a single white-space code point. *)
Fixpoint trimEnd (s : string) : string :=
  match s with
  | EmptyString => EmptyString
  | String c rest =>
      let kept := String c (trimEnd rest) in
      if is_white_space kept then EmptyString else kept
  end.

Definition trim (s : string) : string := trimEnd (trimStart s).

(** ** The boundary to the wrapped library *)

(** A call into the library: the function or method that is called, the
    object it is called on, and the arguments in order. *)
Record call := Call {
  target : string;
  receiver : jsval;
  args : list jsval
}.

(** What an ordinary (synchronous) call does. *)
Inductive sync_reply :=
| Returns (v : jsval)
| Throws (e : jsval).

(** What a callback-style entry point does with the two callbacks it is
    given: it invokes the success callback, or the failure callback with an
    error, or throws before invoking either, or invokes neither.  A promise
    settles once, so only the first of these matters. *)
Inductive cb_reply :=
| CbSuccess
| CbFailure (e : jsval)
| CbThrows (e : jsval)
| CbSilent.

(** What awaiting the result of a caller-supplied function gives. *)
Inductive awaited :=
| Fulfilled (v : jsval)
| Rejected (e : jsval)
| Pending.

(** What [String(v)] does: it gives a text, or throws (a value whose
    [toString] cannot be called, a symbol). *)
Inductive text_reply :=
| Text (t : string)
| TextThrows (e : jsval).

(** What the library does with a call that is handed a function of this
    package: it returns or throws, or it first calls the function back, with
    arguments of its choosing, sees what the function returned or threw and
    in which state it left the library, and goes on from there.  The
    function is called back any number of times, but the call comes to an
    end, as an ordinary call does. *)
Inductive reentry (S : Type) :=
| Replies (r : sync_reply) (s : S)
| CallsBack (a : list jsval) (s : S) (resume : sync_reply -> S -> reentry S).
Arguments Replies {S}.
Arguments CallsBack {S}.

(** One entry of the record of what crossed the boundary, with the answer.
    The entries are in the order in which the calls ended: a call that the
    package makes while the library is calling one of its functions back
    comes before the call during which that happens. *)
Inductive event :=
| EvCall (c : call) (r : sync_reply)
| EvCallback (c : call) (r : cb_reply)
| EvUser (f : jsval) (a : list jsval) (r : awaited).

(** The environment of the package: the wrapped library, whose answers may
    depend on its own state [S] and change it, the functions the caller
    passes in, and the two built-ins the client module uses.  The record of
    calls holds the calls of the library and of the token supplier; the
    built-ins are not recorded. *)
Record runtime (S : Type) := Runtime {
  ee_call : S -> call -> sync_reply * S;
  (** a call that is handed a function of this package *)
  ee_call_with : S -> call -> reentry S;
  ee_callback : S -> call -> cb_reply * S;
  user_call : S -> nat -> list jsval -> awaited * S;
  (** evaluating the member expression [ee.data.getApiBaseUrl] *)
  ee_data_getApiBaseUrl : S -> sync_reply;
  (** [JSON.parse]: [None] when it throws *)
  JSON_parse : string -> option jsval;
  (** [String(v)] for a [v] that is not a string already; converting an
      object runs its [toString], which may change the state *)
  String_of : S -> jsval -> text_reply * S
}.
Arguments ee_call {S}.
Arguments ee_call_with {S}.
Arguments ee_callback {S}.
Arguments user_call {S}.
Arguments ee_data_getApiBaseUrl {S}.
Arguments JSON_parse {S}.
Arguments String_of {S}.

(** The module object [ee], its member [ee.data], and the callbacks the
    client module wraps [resolve] and [reject] in. *)
Definition ee : jsval := VHandle 0.
Definition ee_data : jsval := VHandle 1.
Definition on_success : jsval := VLambda "() => resolve()" [].
Definition on_failure : jsval := VLambda "(error) => reject(error)" [].

(** ** The monad of the embedding *)

(** How a computation ends: with a value, with an exception (for an async
    function, a rejected promise), or never (a promise left pending). *)
Inductive outcome (A : Type) :=
| Ok (a : A)
| Err (e : jsval)
| Hang.
Arguments Ok {A}.
Arguments Err {A}.
Arguments Hang {A}.

Definition M (S A : Type) : Type := S -> outcome A * S * list event.

Definition ret {S A} (a : A) : M S A := fun s => (Ok a, s, []).

Definition throw {S A} (e : jsval) : M S A := fun s => (Err e, s, []).

Definition bind {S A B} (m : M S A) (k : A -> M S B) : M S B :=
  fun s =>
    match m s with
    | (Ok a, s1, l1) =>
        match k a s1 with
        | (o, s2, l2) => (o, s2, l1 ++ l2)
        end
    | (Err e, s1, l1) => (Err e, s1, l1)
    | (Hang, s1, l1) => (Hang, s1, l1)
    end.

(** [try { m } catch { h }] *)
Definition try_catch {S A} (m : M S A) (h : jsval -> M S A) : M S A :=
  fun s =>
    match m s with
    | (Err e, s1, l1) =>
        match h e s1 with
        | (o, s2, l2) => (o, s2, l1 ++ l2)
        end
    | r => r
    end.

(** The instances give the computations stdpp's notation: [x ← m; k] runs
    [m], names its value [x] and goes on with [k]; [m;; k] drops the value. *)
#[global] Instance M_ret {S} : MRet (M S) := fun A a => ret a.
#[global] Instance M_bind {S} : MBind (M S) := fun A B k m => bind m k.

Definition outcome_of {S A} (r : outcome A * S * list event) : outcome A := r.1.1.
Definition trace_of {S A} (r : outcome A * S * list event) : list event := r.2.

Section Boundary.
Context {S : Type} (rt : runtime S).

(** A synchronous call of a library function or method. *)
Definition invoke (c : call) : M S jsval :=
  fun s =>
    match ee_call rt s c with
    | (Returns v, s1) => (Ok v, s1, [EvCall c (Returns v)])
    | (Throws e, s1) => (Err e, s1, [EvCall c (Throws e)])
    end.

(** [await new Promise((resolve, reject) => f(..., () => resolve(),
    (error) => reject(error), ...))] *)
Definition await_callback (c : call) : M S unit :=
  fun s =>
    match ee_callback rt s c with
    | (CbSuccess, s1) => (Ok tt, s1, [EvCallback c CbSuccess])
    | (CbFailure e, s1) => (Err e, s1, [EvCallback c (CbFailure e)])
    | (CbThrows e, s1) => (Err e, s1, [EvCallback c (CbThrows e)])
    | (CbSilent, s1) => (Hang, s1, [EvCallback c CbSilent])
    end.

(** [await f(...)] for a value [f] the caller supplied. *)
Definition await_user (f : jsval) (a : list jsval) : M S jsval :=
  match f with
  | VFun id =>
      fun s =>
        match user_call rt s id a with
        | (Fulfilled v, s1) => (Ok v, s1, [EvUser f a (Fulfilled v)])
        | (Rejected e, s1) => (Err e, s1, [EvUser f a (Rejected e)])
        | (Pending, s1) => (Hang, s1, [EvUser f a Pending])
        end
  | _ => throw (VError "TypeError: not a function")
  end.

(** [ee.f(a...)] for a function reached from the module object, and
    [obj.f(a...)] for a method of a library object. *)
Definition static (path : string) (a : list jsval) : M S jsval :=
  invoke (Call path ee a).

Definition method (obj : jsval) (name : string) (a : list jsval) : M S jsval :=
  invoke (Call name obj a).

(** Evaluating [ee.data.getApiBaseUrl] without calling it. *)
Definition read_getApiBaseUrl : M S jsval :=
  fun s =>
    match ee_data_getApiBaseUrl rt s with
    | Returns v => (Ok v, s, [])
    | Throws e => (Err e, s, [])
    end.

(** [for (const x of l) body(x)] *)
Fixpoint for_of (body : jsval -> M S unit) (l : list jsval) : M S unit :=
  match l with
  | [] => ret tt
  | x :: rest => body x;; for_of body rest
  end.

(** [l.map(f)] for an array [l] and a function [f] of this package *)
Fixpoint array_map (f : jsval -> M S jsval) (l : list jsval) : M S (list jsval) :=
  match l with
  | [] => ret []
  | x :: rest => y ← f x; ys ← array_map f rest; ret (y :: ys)
  end.

(** Reading [v.k]. *)
Definition get_prop (v : jsval) (k : string) : M S jsval :=
  match v with
  | VUndefined | VNull => throw (VError "TypeError: cannot read properties")
  | VObj o => ret (get o k)
  | _ => ret VUndefined
  end.

(** [String(v)] *)
Definition js_String (v : jsval) : M S string :=
  match v with
  | VStr t => ret t
  | _ =>
      fun s =>
        match String_of rt s v with
        | (Text t, s1) => (Ok t, s1, [])
        | (TextThrows e, s1) => (Err e, s1, [])
        end
  end.

(** A call that is handed the function [f] of this package: each time the
    library calls [f] back, [f] runs, and what it returns or throws goes
    back to the library. *)
Fixpoint calling_back (c : call) (f : list jsval -> M S jsval) (r : reentry S)
  : outcome jsval * S * list event :=
  match r with
  | Replies (Returns v) s1 => (Ok v, s1, [EvCall c (Returns v)])
  | Replies (Throws e) s1 => (Err e, s1, [EvCall c (Throws e)])
  | CallsBack a s1 resume =>
      match f a s1 with
      | (Ok v, s2, l) =>
          match calling_back c f (resume (Returns v) s2) with
          | (o, s3, l') => (o, s3, l ++ l')
          end
      | (Err e, s2, l) =>
          match calling_back c f (resume (Throws e) s2) with
          | (o, s3, l') => (o, s3, l ++ l')
          end
      | (Hang, s2, l) => (Hang, s2, l)
      end
  end.

Definition invoke_with (c : call) (f : list jsval -> M S jsval) : M S jsval :=
  fun s => calling_back c f (ee_call_with rt s c).
End Boundary.

(** ** [src/client.ts] *)
Module Client.
Section Client.
Context {S : Type} (rt : runtime S).

(** [const DEFAULT_SCOPES = ['https://www.googleapis.com/auth/earthengine']] *)
Definition DEFAULT_SCOPES : jsval :=
  VArr [VStr "https://www.googleapis.com/auth/earthengine"].

(** [parseServiceAccountKey(keyInput)]: a string is parsed and its
    [client_email], [private_key] and [project_id] picked out, with
    anything thrown on the way replaced by the fixed error; any other
    input is returned as it is. *)
Definition parseServiceAccountKey (keyInput : jsval) : M S jsval :=
  match keyInput with
  | VStr text =>
      try_catch
        (parsed ← match JSON_parse rt text with
                  | Some v => ret v
                  | None => throw (VError "SyntaxError")
                  end;
         client_email ← get_prop parsed "client_email";
         private_key ← get_prop parsed "private_key";
         project_id ← get_prop parsed "project_id";
         ret (VObj {[ "email" := client_email;
                      "privateKey" := private_key;
                      "projectId" := project_id ]}))
        (fun _ => throw (VError "Failed to parse service account JSON key"))
  | _ => ret keyInput
  end.

(** [project && typeof project === 'string'] *)
Definition usable_project (project : jsval) : option string :=
  match project with
  | VStr p => if truthy project then Some p else None
  | _ => None
  end.

(** [ee.data.authenticateViaPrivateKey(credentials, () => resolve(),
    (error) => reject(error))] *)
Definition private_key_call (credentials : gmap string jsval) : call :=
  Call "ee.data.authenticateViaPrivateKey" ee_data
       [VObj credentials; on_success; on_failure].

(** [ee.data.setAuthToken('', 'Bearer', token, 3600, [], undefined, false)] *)
Definition set_token_call (token : jsval) : call :=
  Call "ee.data.setAuthToken" ee_data
       [VStr ""; VStr "Bearer"; token; VNum 3600; VArr []; VUndefined;
        VBool false].

(** [ee.initialize(baseUrlValue, null, () => resolve(),
    (error) => reject(error), null, projectValue)] *)
Definition initialize_call (baseUrlValue projectValue : jsval) : call :=
  Call "ee.initialize" ee
       [baseUrlValue; VNull; on_success; on_failure; VNull; projectValue].

Definition authenticateViaPrivateKey (credentials : gmap string jsval) : M S unit :=
  await_callback rt (private_key_call credentials).

(** The [if]/[else if] chain of [initEarthEngine] that picks the
    credentials and authenticates with them. *)
Definition authenticate (options : gmap string jsval) : M S unit :=
  let privateKeyJson := get options "privateKeyJson" in
  let email := get options "email" in
  let privateKey := get options "privateKey" in
  let tokenRetriever := get options "tokenRetriever" in
  let project := get options "project" in
  if truthy email && truthy privateKey then
    let credentials : gmap string jsval :=
      {[ "client_email" := email; "private_key" := privateKey ]} in
    let credentials :=
      match usable_project project with
      | Some p => set "project_id" (VStr (trim p)) credentials
      | None => credentials
      end in
    authenticateViaPrivateKey credentials
  else if truthy privateKeyJson then
    parsedCredentials ← parseServiceAccountKey privateKeyJson;
    parsed_email ← get_prop parsedCredentials "email";
    parsed_privateKey ← get_prop parsedCredentials "privateKey";
    let credentials : gmap string jsval :=
      {[ "client_email" := parsed_email; "private_key" := parsed_privateKey ]} in
    match usable_project project with
    | Some p =>
        authenticateViaPrivateKey (set "project_id" (VStr (trim p)) credentials)
    | None =>
        parsed_projectId ← get_prop parsedCredentials "projectId";
        authenticateViaPrivateKey
          (set_if_truthy "project_id" parsed_projectId credentials)
    end
  else if truthy tokenRetriever then
    token ← await_user rt tokenRetriever [];
    invoke rt (set_token_call token);;
    ret tt
  else ret tt.

Definition ee_initialize (baseUrlValue projectValue : jsval) : M S unit :=
  await_callback rt (initialize_call baseUrlValue projectValue).

(** [let projectValue = null; if (project) { if (typeof project !==
    'string') return reject(new Error(...)); projectValue = project.trim()
    || null; }] *)
Definition project_value (project : jsval) : M S jsval :=
  if truthy project then
    match project with
    | VStr p => ret (js_or (VStr (trim p)) VNull)
    | _ => throw (VError ("Project must be a string, got " +:+ typeof project))
    end
  else ret VNull.

(** [const baseUrlValue = baseUrl ? String(baseUrl).trim() : null] *)
Definition base_url_value (baseUrl : jsval) : M S jsval :=
  if truthy baseUrl then
    text ← js_String rt baseUrl;
    ret (VStr (trim text))
  else ret VNull.

(** The second promise of [initEarthEngine].  What its executor throws
    rejects the promise. *)
Definition initialize (options : gmap string jsval) : M S unit :=
  let project := get options "project" in
  let baseUrl := get options "baseUrl" in
  projectValue ← project_value project;
  baseUrlValue ← base_url_value baseUrl;
  ee_initialize baseUrlValue projectValue.

(** [initEarthEngine(options)] *)
Definition initEarthEngine (options : gmap string jsval) : M S jsval :=
  authenticate options;;
  initialize options;;
  ret ee.

(** [initWithOAuth(options)] *)
Definition initWithOAuth (options : gmap string jsval) : M S jsval :=
  let clientId := get options "clientId" in
  let scopes := get_default options "scopes" DEFAULT_SCOPES in
  let project := get options "project" in
  await_callback rt
    (Call "ee.data.authenticateViaOauth" ee_data
          [clientId; on_success; on_failure; scopes; VNull]);;
  let projectValue :=
    match usable_project project with
    | Some p => VStr (trim p)
    | None => VNull
    end in
  ee_initialize VNull projectValue;;
  ret ee.

(** [isInitialized()] *)
Definition isInitialized : M S bool :=
  try_catch
    (member ← read_getApiBaseUrl rt;
     if String.eqb (typeof member) "function" then
       url ← invoke rt (Call "ee.data.getApiBaseUrl" ee_data []);
       ret (match url with VNull => false | _ => true end)
     else ret false)
    (fun _ => ret false).

(** [resetClient()] *)
Definition resetClient : M S unit :=
  invoke rt (Call "ee.reset" ee []);;
  ret tt.
End Client.
End Client.

(** ** [src/helpers/geometry.ts] *)
Module Geometry.
Section Geometry.
Context {S : Type} (rt : runtime S).

Definition createPoint (longitude latitude : jsval) : M S jsval :=
  static rt "ee.Geometry.Point" [VArr [longitude; latitude]].

Definition createPointFromCoords (coords : jsval) : M S jsval :=
  static rt "ee.Geometry.Point" [coords].

(** [const [west, south, east, north] = bounds] *)
Definition createRectangle (bounds : list jsval) : M S jsval :=
  let west := nth 0 bounds VUndefined in
  let south := nth 1 bounds VUndefined in
  let east := nth 2 bounds VUndefined in
  let north := nth 3 bounds VUndefined in
  static rt "ee.Geometry.Rectangle" [VArr [west; south; east; north]].

Definition createPolygon (coordinates : jsval) : M S jsval :=
  static rt "ee.Geometry.Polygon" [coordinates].

Definition createLineString (coordinates : jsval) : M S jsval :=
  static rt "ee.Geometry.LineString" [coordinates].

Definition createMultiPoint (coordinates : jsval) : M S jsval :=
  static rt "ee.Geometry.MultiPoint" [coordinates].

Definition bufferGeometry (geometry distance : jsval) : M S jsval :=
  method rt geometry "buffer" [distance].

(** [if (maxError !== undefined) return g.f(..., maxError); return g.f(...)] *)
Definition with_maxError (geometry : jsval) (name : string)
    (a : list jsval) (maxError : jsval) : M S jsval :=
  match maxError with
  | VUndefined => method rt geometry name a
  | _ => method rt geometry name (a ++ [maxError])
  end.

Definition centroid (geometry maxError : jsval) : M S jsval :=
  with_maxError geometry "centroid" [] maxError.

Definition bounds (geometry maxError : jsval) : M S jsval :=
  with_maxError geometry "bounds" [] maxError.

Definition area (geometry maxError : jsval) : M S jsval :=
  with_maxError geometry "area" [] maxError.

Definition union (geometry1 geometry2 maxError : jsval) : M S jsval :=
  with_maxError geometry1 "union" [geometry2] maxError.

Definition intersection (geometry1 geometry2 maxError : jsval) : M S jsval :=
  with_maxError geometry1 "intersection" [geometry2] maxError.

Definition difference (geometry1 geometry2 maxError : jsval) : M S jsval :=
  with_maxError geometry1 "difference" [geometry2] maxError.

Definition createFeature (geometry properties : jsval) : M S jsval :=
  if truthy properties then static rt "ee.Feature" [geometry; properties]
  else static rt "ee.Feature" [geometry].

Definition createFeatureCollection (features : jsval) : M S jsval :=
  static rt "ee.FeatureCollection" [features].

Definition featureCollectionFromGeometries (geometries : list jsval) : M S jsval :=
  features ← array_map (fun geom => static rt "ee.Feature" [geom]) geometries;
  static rt "ee.FeatureCollection" [VArr features].
End Geometry.
End Geometry.

(** ** [src/helpers/images.ts] *)
Module Images.
Section Images.
Context {S : Type} (rt : runtime S).

(** [interface TimeRange { start: string; end: string }] *)
Record TimeRange := { start : jsval; end_ : jsval }.

Definition loadImageCollection (collectionId geometry : jsval)
    (timeRange : TimeRange) : M S jsval :=
  collection ← static rt "ee.ImageCollection" [collectionId];
  bounded ← method rt collection "filterBounds" [geometry];
  method rt bounded "filterDate" [start timeRange; end_ timeRange].

Definition loadImage (imageId : jsval) : M S jsval :=
  static rt "ee.Image" [imageId].

Definition mapCollection (collection callback : jsval) : M S jsval :=
  method rt collection "map" [callback].

Definition compositeCollection (collection reducer : jsval) : M S jsval :=
  if truthy reducer then method rt collection "reduce" [reducer]
  else method rt collection "median" [].

(** [propertyName = 'CLOUD_COVER'] *)
Definition filterByCloudCover (collection maxCloudCover propertyName : jsval)
  : M S jsval :=
  let propertyName :=
    match propertyName with VUndefined => VStr "CLOUD_COVER" | v => v end in
  filter ← static rt "ee.Filter.lte" [propertyName; maxCloudCover];
  method rt collection "filter" [filter].

Definition selectBands (collection bands newNames : jsval) : M S jsval :=
  if truthy newNames then method rt collection "select" [bands; newNames]
  else method rt collection "select" [bands].

Definition calculateNDVI (image nirBand redBand : jsval) : M S jsval :=
  nd ← method rt image "normalizedDifference" [VArr [nirBand; redBand]];
  method rt nd "rename" [VStr "NDVI"].

Definition clipImage (image geometry : jsval) : M S jsval :=
  method rt image "clip" [geometry].

(** [(image) => (image as EEImage).clip(geometry)], as a value and as
    what it does when the library calls it. *)
Definition clip_with (geometry : jsval) : jsval :=
  VLambda "(image) => image.clip(geometry)" [geometry].

Definition clip_with_body (geometry : jsval) (a : list jsval) : M S jsval :=
  let image := nth 0 a VUndefined in
  method rt image "clip" [geometry].

Definition clipCollection (collection geometry : jsval) : M S jsval :=
  invoke_with rt (Call "map" collection [clip_with geometry])
    (clip_with_body geometry).

Definition getCollectionSize (collection : jsval) : M S jsval :=
  method rt collection "size" [].

Definition collectionToList (collection : jsval) : M S jsval :=
  count ← method rt collection "size" [];
  method rt collection "toList" [count].
End Images.
End Images.

(** ** [src/helpers/exports.ts] *)
Module Exports.
Section Exports.
Context {S : Type} (rt : runtime S).

(** Each export helper first builds the record [exportOptions] from its
    arguments and then hands it to the library.  The records are named
    here after the helper that builds them. *)
Definition imageToDrive_options (image : jsval) (options : gmap string jsval)
  : gmap string jsval :=
  let description := get options "description" in
  let folder := get options "folder" in
  let scale := get options "scale" in
  let crs := get options "crs" in
  let maxPixels := get options "maxPixels" in
  let region := get options "region" in
  let fileFormat := get_default options "fileFormat" (VStr "GeoTIFF") in
  let formatOptions := get options "formatOptions" in
  let exportOptions : gmap string jsval :=
    {[ "image" := image; "description" := description;
       "fileFormat" := fileFormat ]} in
  let exportOptions := set_if_truthy "folder" folder exportOptions in
  let exportOptions := set_if_truthy "scale" scale exportOptions in
  let exportOptions := set_if_truthy "crs" crs exportOptions in
  let exportOptions := set_if_truthy "maxPixels" maxPixels exportOptions in
  let exportOptions := set_if_truthy "region" region exportOptions in
  set_if_truthy "formatOptions" formatOptions exportOptions.

Definition exportImageToDrive (image : jsval) (options : gmap string jsval)
  : M S jsval :=
  static rt "ee.batch.Export.image.toDrive"
    [VObj (imageToDrive_options image options)].

Definition imageToCloudStorage_options (image : jsval)
    (options : gmap string jsval) : gmap string jsval :=
  let description := get options "description" in
  let bucket := get options "bucket" in
  let fileNamePrefix := get options "fileNamePrefix" in
  let scale := get options "scale" in
  let crs := get options "crs" in
  let maxPixels := get options "maxPixels" in
  let region := get options "region" in
  let fileFormat := get_default options "fileFormat" (VStr "GeoTIFF") in
  let formatOptions := get options "formatOptions" in
  let exportOptions : gmap string jsval :=
    {[ "image" := image; "description" := description; "bucket" := bucket;
       "fileFormat" := fileFormat ]} in
  let exportOptions := set_if_truthy "fileNamePrefix" fileNamePrefix exportOptions in
  let exportOptions := set_if_truthy "scale" scale exportOptions in
  let exportOptions := set_if_truthy "crs" crs exportOptions in
  let exportOptions := set_if_truthy "maxPixels" maxPixels exportOptions in
  let exportOptions := set_if_truthy "region" region exportOptions in
  set_if_truthy "formatOptions" formatOptions exportOptions.

Definition exportImageToCloudStorage (image : jsval) (options : gmap string jsval)
  : M S jsval :=
  static rt "ee.batch.Export.image.toCloudStorage"
    [VObj (imageToCloudStorage_options image options)].

Definition tableToDrive_options (collection : jsval) (options : gmap string jsval)
  : gmap string jsval :=
  let description := get options "description" in
  let folder := get options "folder" in
  let fileFormat := get_default options "fileFormat" (VStr "CSV") in
  let selectors := get options "selectors" in
  let exportOptions : gmap string jsval :=
    {[ "collection" := collection; "description" := description;
       "fileFormat" := fileFormat ]} in
  let exportOptions := set_if_truthy "folder" folder exportOptions in
  set_if_truthy "selectors" selectors exportOptions.

Definition exportTableToDrive (collection : jsval) (options : gmap string jsval)
  : M S jsval :=
  static rt "ee.batch.Export.table.toDrive"
    [VObj (tableToDrive_options collection options)].

Definition tableToCloudStorage_options (collection : jsval)
    (options : gmap string jsval) : gmap string jsval :=
  let description := get options "description" in
  let bucket := get options "bucket" in
  let fileNamePrefix := get options "fileNamePrefix" in
  let fileFormat := get_default options "fileFormat" (VStr "CSV") in
  let selectors := get options "selectors" in
  let exportOptions : gmap string jsval :=
    {[ "collection" := collection; "description" := description;
       "bucket" := bucket; "fileFormat" := fileFormat ]} in
  let exportOptions := set_if_truthy "fileNamePrefix" fileNamePrefix exportOptions in
  set_if_truthy "selectors" selectors exportOptions.

Definition exportTableToCloudStorage (collection : jsval)
    (options : gmap string jsval) : M S jsval :=
  static rt "ee.batch.Export.table.toCloudStorage"
    [VObj (tableToCloudStorage_options collection options)].

(** The caller may leave [options] out; it is then the empty record. *)
Definition imageToAsset_options (image description assetId : jsval)
    (options : gmap string jsval) : gmap string jsval :=
  let scale := get options "scale" in
  let crs := get options "crs" in
  let maxPixels := get options "maxPixels" in
  let region := get options "region" in
  let exportOptions : gmap string jsval :=
    {[ "image" := image; "description" := description; "assetId" := assetId ]} in
  let exportOptions := set_if_truthy "scale" scale exportOptions in
  let exportOptions := set_if_truthy "crs" crs exportOptions in
  let exportOptions := set_if_truthy "maxPixels" maxPixels exportOptions in
  set_if_truthy "region" region exportOptions.

Definition exportImageToAsset (image description assetId : jsval)
    (options : gmap string jsval) : M S jsval :=
  static rt "ee.batch.Export.image.toAsset"
    [VObj (imageToAsset_options image description assetId options)].

Definition tableToAsset_options (collection description assetId : jsval)
  : gmap string jsval :=
  {[ "collection" := collection; "description" := description;
     "assetId" := assetId ]}.

Definition exportTableToAsset (collection description assetId : jsval) : M S jsval :=
  static rt "ee.batch.Export.table.toAsset"
    [VObj (tableToAsset_options collection description assetId)].

Definition startTasks (tasks : list jsval) : M S unit :=
  for_of (fun task => method rt task "start" [];; ret tt) tasks.
End Exports.
End Exports.

(** ** Every helper, applied *)

(** One constructor per exported helper, holding the arguments of one
    application of it. *)
Inductive helper_app :=
| CreatePoint (longitude latitude : jsval)
| CreatePointFromCoords (coords : jsval)
| CreateRectangle (bounds : list jsval)
| CreatePolygon (coordinates : jsval)
| CreateLineString (coordinates : jsval)
| CreateMultiPoint (coordinates : jsval)
| BufferGeometry (geometry distance : jsval)
| Centroid (geometry maxError : jsval)
| Bounds (geometry maxError : jsval)
| Area (geometry maxError : jsval)
| Union (geometry1 geometry2 maxError : jsval)
| Intersection (geometry1 geometry2 maxError : jsval)
| Difference (geometry1 geometry2 maxError : jsval)
| CreateFeature (geometry properties : jsval)
| CreateFeatureCollection (features : jsval)
| FeatureCollectionFromGeometries (geometries : list jsval)
| LoadImageCollection (collectionId geometry : jsval) (timeRange : Images.TimeRange)
| LoadImage (imageId : jsval)
| MapCollection (collection callback : jsval)
| CompositeCollection (collection reducer : jsval)
| FilterByCloudCover (collection maxCloudCover propertyName : jsval)
| SelectBands (collection bands newNames : jsval)
| CalculateNDVI (image nirBand redBand : jsval)
| ClipImage (image geometry : jsval)
| ClipCollection (collection geometry : jsval)
| GetCollectionSize (collection : jsval)
| CollectionToList (collection : jsval)
| ExportImageToDrive (image : jsval) (options : gmap string jsval)
| ExportImageToCloudStorage (image : jsval) (options : gmap string jsval)
| ExportTableToDrive (collection : jsval) (options : gmap string jsval)
| ExportTableToCloudStorage (collection : jsval) (options : gmap string jsval)
| ExportImageToAsset (image description assetId : jsval) (options : gmap string jsval)
| ExportTableToAsset (collection description assetId : jsval)
| StartTasks (tasks : list jsval).

(** Running the application.  [startTasks] returns nothing, which a caller
    sees as [undefined]. *)
Definition run_helper {S} (rt : runtime S) (h : helper_app) : M S jsval :=
  match h with
  | CreatePoint lon lat => Geometry.createPoint rt lon lat
  | CreatePointFromCoords coords => Geometry.createPointFromCoords rt coords
  | CreateRectangle bounds => Geometry.createRectangle rt bounds
  | CreatePolygon coordinates => Geometry.createPolygon rt coordinates
  | CreateLineString coordinates => Geometry.createLineString rt coordinates
  | CreateMultiPoint coordinates => Geometry.createMultiPoint rt coordinates
  | BufferGeometry geometry distance => Geometry.bufferGeometry rt geometry distance
  | Centroid geometry maxError => Geometry.centroid rt geometry maxError
  | Bounds geometry maxError => Geometry.bounds rt geometry maxError
  | Area geometry maxError => Geometry.area rt geometry maxError
  | Union g1 g2 maxError => Geometry.union rt g1 g2 maxError
  | Intersection g1 g2 maxError => Geometry.intersection rt g1 g2 maxError
  | Difference g1 g2 maxError => Geometry.difference rt g1 g2 maxError
  | CreateFeature geometry properties => Geometry.createFeature rt geometry properties
  | CreateFeatureCollection features => Geometry.createFeatureCollection rt features
  | FeatureCollectionFromGeometries geometries =>
      Geometry.featureCollectionFromGeometries rt geometries
  | LoadImageCollection collectionId geometry timeRange =>
      Images.loadImageCollection rt collectionId geometry timeRange
  | LoadImage imageId => Images.loadImage rt imageId
  | MapCollection collection callback => Images.mapCollection rt collection callback
  | CompositeCollection collection reducer =>
      Images.compositeCollection rt collection reducer
  | FilterByCloudCover collection maxCloudCover propertyName =>
      Images.filterByCloudCover rt collection maxCloudCover propertyName
  | SelectBands collection bands newNames =>
      Images.selectBands rt collection bands newNames
  | CalculateNDVI image nirBand redBand => Images.calculateNDVI rt image nirBand redBand
  | ClipImage image geometry => Images.clipImage rt image geometry
  | ClipCollection collection geometry => Images.clipCollection rt collection geometry
  | GetCollectionSize collection => Images.getCollectionSize rt collection
  | CollectionToList collection => Images.collectionToList rt collection
  | ExportImageToDrive image options => Exports.exportImageToDrive rt image options
  | ExportImageToCloudStorage image options =>
      Exports.exportImageToCloudStorage rt image options
  | ExportTableToDrive collection options =>
      Exports.exportTableToDrive rt collection options
  | ExportTableToCloudStorage collection options =>
      Exports.exportTableToCloudStorage rt collection options
  | ExportImageToAsset image description assetId options =>
      Exports.exportImageToAsset rt image description assetId options
  | ExportTableToAsset collection description assetId =>
      Exports.exportTableToAsset rt collection description assetId
  | StartTasks tasks => Exports.startTasks rt tasks;; ret VUndefined
  end.

(** The values an application hands to the helper: its arguments, with a
    tuple, an array, a time range or an options record taken apart into the
    values the helper reads from it. *)
Definition fields (options : gmap string jsval) (keys : list string) : list jsval :=
  map (get options) keys.


(** ** Reading a record of calls *)

Definition state_of {S A} (r : outcome A * S * list event) : S := r.1.2.

Definition event_target (ev : event) : option string :=
  match ev with
  | EvCall c _ | EvCallback c _ => Some (target c)
  | EvUser _ _ _ => None
  end.

(** [ev] is a call of the library function or method [name]. *)
Definition is_call_to (name : string) (ev : event) : bool :=
  match event_target ev with
  | Some t => String.eqb t name
  | None => false
  end.

(** [ev] is a call of a function the caller supplied. *)
Definition is_user_call (ev : event) : bool :=
  match ev with
  | EvUser _ _ _ => true
  | _ => false
  end.

Fixpoint count (p : event -> bool) (tr : list event) : nat :=
  match tr with
  | [] => 0
  | ev :: rest => (if p ev then 1 else 0) + count p rest
  end.

(** The call went through: it returned, invoked the success callback, or
    its promise was fulfilled. *)
Definition succeeded (ev : event) : bool :=
  match ev with
  | EvCall _ (Returns _) | EvCallback _ CbSuccess | EvUser _ _ (Fulfilled _) => true
  | _ => false
  end.

(** The error a call ended with, if it did. *)
Definition error_of (ev : event) : option jsval :=
  match ev with
  | EvCall _ (Throws e) | EvCallback _ (CbFailure e) | EvCallback _ (CbThrows e)
  | EvUser _ _ (Rejected e) => Some e
  | _ => None
  end.

(** A computation that touches neither the library nor its state. *)
Definition pure {S A} (m : M S A) : Prop :=
  forall s, (exists a, m s = (Ok a, s, [])) \/ (exists e, m s = (Err e, s, [])).

(** [ev] is a call of [ee.data.authenticateViaPrivateKey] whose credentials
    carry this e-mail address and this key. *)
Definition authenticates_with (email privateKey : jsval) (ev : event) : Prop :=
  exists credentials r,
    ev = EvCallback (Client.private_key_call credentials) r
    /\ credentials !! "client_email" = Some email
    /\ credentials !! "private_key" = Some privateKey.

(** [ev] is a call of [ee.initialize] that is given [projectValue]. *)
Definition initializes_with (projectValue : jsval) (ev : event) : Prop :=
  exists baseUrlValue r,
    ev = EvCallback (Client.initialize_call baseUrlValue projectValue) r.

(** Reading [v.k] from a value that is neither [null] nor [undefined]. *)
Definition peek (v : jsval) (k : string) : jsval :=
  match v with
  | VObj o => get o k
  | _ => VUndefined
  end.




(** The record consists of one call, which was given the single argument
    [VObj record]. *)
Definition hands_over (tr : list event) (record : gmap string jsval) : Prop :=
  exists c r, tr = [EvCall c r] /\ args c = [VObj record].

(** ** The call a helper corresponds to

    The specification has every helper forward its arguments unchanged to
    the corresponding call of the wrapped library and return its result
    unchanged.  A [plan] says which calls those are: the function or method,
    the object it is called on, and every argument in its place. *)
Inductive plan :=
| Result_of (c : call)
| Then (c : call) (next : jsval -> plan)
| Nothing
| Result_of_mapping (c : call) (each : list jsval -> call).


(** An optional argument that is left out when it is [undefined], or when
    it is falsy, and a default that stands in for [undefined]. *)
Definition unless_undefined (v : jsval) : list jsval :=
  match v with
  | VUndefined => []
  | _ => [v]
  end.

Definition if_truthy (v : jsval) : list jsval :=
  if truthy v then [v] else [].

Definition or_default (v d : jsval) : jsval :=
  match v with
  | VUndefined => d
  | _ => v
  end.

(** The record of an export: the fields it always has, and those of the
    optional fields of the options whose value is truthy. *)
Definition is_optional (optional : list string) (k : string) : bool :=
  existsb (String.eqb k) optional.

Definition export_record (always : list (string * jsval)) (optional : list string)
    (options : gmap string jsval) : gmap string jsval :=
  list_to_map always
  ∪ filter (fun kv => is_optional optional kv.1 && truthy kv.2 = true) options.

(** [ee.Feature] for each geometry in turn, then [ee.FeatureCollection] for
    the features in the same order. *)
Fixpoint each_feature (geometries features : list jsval) : plan :=
  match geometries with
  | [] => Result_of (Call "ee.FeatureCollection" ee [VArr features])
  | g :: rest =>
      Then (Call "ee.Feature" ee [g]) (fun f => each_feature rest (features ++ [f]))
  end.

(** [start()] for each task in turn. *)
Fixpoint each_task (tasks : list jsval) : plan :=
  match tasks with
  | [] => Nothing
  | task :: rest => Then (Call "start" task []) (fun _ => each_task rest)
  end.

Definition corresponding_call (h : helper_app) : plan :=
  match h with
  | CreatePoint longitude latitude =>
      Result_of (Call "ee.Geometry.Point" ee [VArr [longitude; latitude]])
  | CreatePointFromCoords coords =>
      Result_of (Call "ee.Geometry.Point" ee [coords])
  | CreateRectangle bounds =>
      Result_of (Call "ee.Geometry.Rectangle" ee
                      [VArr (take 4 (bounds ++ replicate 4 VUndefined))])
  | CreatePolygon coordinates =>
      Result_of (Call "ee.Geometry.Polygon" ee [coordinates])
  | CreateLineString coordinates =>
      Result_of (Call "ee.Geometry.LineString" ee [coordinates])
  | CreateMultiPoint coordinates =>
      Result_of (Call "ee.Geometry.MultiPoint" ee [coordinates])
  | BufferGeometry geometry distance =>
      Result_of (Call "buffer" geometry [distance])
  | Centroid geometry maxError =>
      Result_of (Call "centroid" geometry (unless_undefined maxError))
  | Bounds geometry maxError =>
      Result_of (Call "bounds" geometry (unless_undefined maxError))
  | Area geometry maxError =>
      Result_of (Call "area" geometry (unless_undefined maxError))
  | Union geometry1 geometry2 maxError =>
      Result_of (Call "union" geometry1 (geometry2 :: unless_undefined maxError))
  | Intersection geometry1 geometry2 maxError =>
      Result_of (Call "intersection" geometry1
                      (geometry2 :: unless_undefined maxError))
  | Difference geometry1 geometry2 maxError =>
      Result_of (Call "difference" geometry1
                      (geometry2 :: unless_undefined maxError))
  | CreateFeature geometry properties =>
      Result_of (Call "ee.Feature" ee (geometry :: if_truthy properties))
  | CreateFeatureCollection features =>
      Result_of (Call "ee.FeatureCollection" ee [features])
  | FeatureCollectionFromGeometries geometries => each_feature geometries []
  | LoadImageCollection collectionId geometry timeRange =>
      Then (Call "ee.ImageCollection" ee [collectionId]) (fun collection =>
      Then (Call "filterBounds" collection [geometry]) (fun bounded =>
      Result_of (Call "filterDate" bounded
                      [Images.start timeRange; Images.end_ timeRange])))
  | LoadImage imageId => Result_of (Call "ee.Image" ee [imageId])
  | MapCollection collection callback =>
      Result_of (Call "map" collection [callback])
  | CompositeCollection collection reducer =>
      if truthy reducer then Result_of (Call "reduce" collection [reducer])
      else Result_of (Call "median" collection [])
  | FilterByCloudCover collection maxCloudCover propertyName =>
      Then (Call "ee.Filter.lte" ee
                 [or_default propertyName (VStr "CLOUD_COVER"); maxCloudCover])
           (fun filter => Result_of (Call "filter" collection [filter]))
  | SelectBands collection bands newNames =>
      Result_of (Call "select" collection (bands :: if_truthy newNames))
  | CalculateNDVI image nirBand redBand =>
      Then (Call "normalizedDifference" image [VArr [nirBand; redBand]])
           (fun nd => Result_of (Call "rename" nd [VStr "NDVI"]))
  | ClipImage image geometry => Result_of (Call "clip" image [geometry])
  | ClipCollection collection geometry =>
      Result_of_mapping
        (Call "map" collection [Images.clip_with geometry])
        (fun a => Call "clip" (nth 0 a VUndefined) [geometry])
  | GetCollectionSize collection => Result_of (Call "size" collection [])
  | CollectionToList collection =>
      Then (Call "size" collection [])
           (fun count => Result_of (Call "toList" collection [count]))
  | ExportImageToDrive image options =>
      Result_of
        (Call "ee.batch.Export.image.toDrive" ee
           [VObj (export_record
                    [("image", image);
                     ("description", get options "description");
                     ("fileFormat",
                      or_default (get options "fileFormat") (VStr "GeoTIFF"))]
                    ["folder"; "scale"; "crs"; "maxPixels"; "region";
                     "formatOptions"]
                    options)])
  | ExportImageToCloudStorage image options =>
      Result_of
        (Call "ee.batch.Export.image.toCloudStorage" ee
           [VObj (export_record
                    [("image", image);
                     ("description", get options "description");
                     ("bucket", get options "bucket");
                     ("fileFormat",
                      or_default (get options "fileFormat") (VStr "GeoTIFF"))]
                    ["fileNamePrefix"; "scale"; "crs"; "maxPixels"; "region";
                     "formatOptions"]
                    options)])
  | ExportTableToDrive collection options =>
      Result_of
        (Call "ee.batch.Export.table.toDrive" ee
           [VObj (export_record
                    [("collection", collection);
                     ("description", get options "description");
                     ("fileFormat",
                      or_default (get options "fileFormat") (VStr "CSV"))]
                    ["folder"; "selectors"]
                    options)])
  | ExportTableToCloudStorage collection options =>
      Result_of
        (Call "ee.batch.Export.table.toCloudStorage" ee
           [VObj (export_record
                    [("collection", collection);
                     ("description", get options "description");
                     ("bucket", get options "bucket");
                     ("fileFormat",
                      or_default (get options "fileFormat") (VStr "CSV"))]
                    ["fileNamePrefix"; "selectors"]
                    options)])
  | ExportImageToAsset image description assetId options =>
      Result_of
        (Call "ee.batch.Export.image.toAsset" ee
           [VObj (export_record
                    [("image", image); ("description", description);
                     ("assetId", assetId)]
                    ["scale"; "crs"; "maxPixels"; "region"]
                    options)])
  | ExportTableToAsset collection description assetId =>
      Result_of
        (Call "ee.batch.Export.table.toAsset" ee
           [VObj (export_record
                    [("collection", collection); ("description", description);
                     ("assetId", assetId)]
                    [] ∅)])
  | StartTasks tasks => each_task tasks
  end.

(** The one helper that hands the library a function of its own. *)
Definition hands_over_a_function (h : helper_app) : bool :=
  match h with
  | ClipCollection _ _ => true
  | _ => false
  end.

(** ** Stand-ins for the wrapped library

    They follow the mocks of [tests/client.test.ts]: every entry point
    succeeds, or one of them reports an error through its failure
    callback.  The stand-in for [JSON.parse] knows one key file. *)
Definition mock_key : jsval :=
  VObj {[ "client_email" := VStr "json@example.iam.gserviceaccount.com";
          "private_key" := VStr "JSON KEY" ]}.

Definition mock_ee : runtime unit := {|
  ee_call := fun s c => (Returns (VHandle 7), s);
  ee_call_with := fun s c => Replies (Returns (VHandle 7)) s;
  ee_callback := fun s c => (CbSuccess, s);
  user_call := fun s id a => (Fulfilled (VStr "mock-access-token"), s);
  ee_data_getApiBaseUrl := fun s => Returns (VFun 0);
  JSON_parse := fun text =>
    if String.eqb text "service-account.json" then Some mock_key else None;
  String_of := fun s _ => (Text "[object Object]", s)
|}.

Definition mock_failing (entry : string) (e : jsval) : runtime unit := {|
  ee_call := fun s c => (Returns (VHandle 7), s);
  ee_call_with := fun s c => Replies (Returns (VHandle 7)) s;
  ee_callback := fun s c =>
    (if String.eqb (target c) entry then CbFailure e else CbSuccess, s);
  user_call := fun s id a => (Fulfilled (VStr "mock-access-token"), s);
  ee_data_getApiBaseUrl := fun s => Returns (VFun 0);
  JSON_parse := fun text =>
    if String.eqb text "service-account.json" then Some mock_key else None;
  String_of := fun s _ => (Text "[object Object]", s)
|}.

(** A stand-in whose [map] calls the function it is handed twice, on two
    images, and whose [clip] throws. *)
Definition mock_mapping : runtime unit := {|
  ee_call := fun s c =>
    (if String.eqb (target c) "clip" then Throws (VError "clip failed")
     else Returns (VHandle 7), s);
  ee_call_with := fun s c =>
    CallsBack [VHandle 8] s (fun _ s1 =>
    CallsBack [VHandle 9] s1 (fun _ s2 =>
    Replies (Returns (VHandle 7)) s2));
  ee_callback := fun s c => (CbSuccess, s);
  user_call := fun s id a => (Fulfilled (VStr "mock-access-token"), s);
  ee_data_getApiBaseUrl := fun s => Returns (VFun 0);
  JSON_parse := fun text => None;
  String_of := fun s _ => (TextThrows (VError "TypeError: cannot convert"), s)
|}.

(** ** More ways to read a record of calls *)

(** The call behind an entry of the record, when it is a call of the
    library. *)
Definition call_of (ev : event) : option call :=
  match ev with
  | EvCall c _ | EvCallback c _ => Some c
  | EvUser _ _ _ => None
  end.

(** The call never came back: neither callback was invoked, or the promise
    was left pending. *)
Definition never_settles (ev : event) : bool :=
  match ev with
  | EvCallback _ CbSilent | EvUser _ _ Pending => true
  | _ => false
  end.

(** [ee.data.authenticateViaOauth(clientId, () => resolve(),
    (error) => reject(error), scopes, null)] *)
Definition oauth_call (clientId scopes : jsval) : call :=
  Call "ee.data.authenticateViaOauth" ee_data
       [clientId; on_success; on_failure; scopes; VNull].

(** [ee.Feature(g)] returning [f], and [task.start()]. *)
Definition feature_event (g f : jsval) : event :=
  EvCall (Call "ee.Feature" ee [g]) (Returns f).

Definition start_call (task : jsval) : call := Call "start" task [].

(** The credentials [initEarthEngine] builds from an e-mail address, a key,
    the project option and the project of the key file. *)
Definition base_credentials (email privateKey : jsval) : gmap string jsval :=
  {[ "client_email" := email; "private_key" := privateKey ]}.

(** ** The second text of the client module

    [src/unnamed/part_002] holds the client module twice.  The second text
    (from line 235 on) knows no separate e-mail address and key, does not
    trim or check the project, and gives [ee.initialize] its options as a
    record.  [isInitialized] and [resetClient] are the same in both. *)
Module ClientEarlier.
Section ClientEarlier.
Context {S : Type} (rt : runtime S).

(** [parseServiceAccountKey(keyInput)], without the project *)
Definition parseServiceAccountKey (keyInput : jsval) : M S jsval :=
  match keyInput with
  | VStr text =>
      try_catch
        (parsed ← match JSON_parse rt text with
                  | Some v => ret v
                  | None => throw (VError "SyntaxError")
                  end;
         client_email ← get_prop parsed "client_email";
         private_key ← get_prop parsed "private_key";
         ret (VObj {[ "email" := client_email; "privateKey" := private_key ]}))
        (fun _ => throw (VError "Failed to parse service account JSON key"))
  | _ => ret keyInput
  end.

(** The [if]/[else if] chain of [initEarthEngine]. *)
Definition authenticate (options : gmap string jsval) : M S unit :=
  let privateKeyJson := get options "privateKeyJson" in
  let tokenRetriever := get options "tokenRetriever" in
  if truthy privateKeyJson then
    credentials ← parseServiceAccountKey privateKeyJson;
    email ← get_prop credentials "email";
    privateKey ← get_prop credentials "privateKey";
    await_callback rt
      (Client.private_key_call
         {[ "client_email" := email; "private_key" := privateKey ]})
  else if truthy tokenRetriever then
    token ← await_user rt tokenRetriever [];
    invoke rt (Client.set_token_call token);;
    ret tt
  else ret tt.

(** [Object.keys(initOptions).length > 0 ? initOptions : undefined] *)
Definition options_or_undefined (initOptions : gmap string jsval) : jsval :=
  if (0 <? size initOptions)%nat then VObj initOptions else VUndefined.

(** [ee.initialize(null, null, () => resolve(), (error) => reject(error),
    null, ...)] *)
Definition initialize_call (initOptions : gmap string jsval) : call :=
  Call "ee.initialize" ee
       [VNull; VNull; on_success; on_failure; VNull;
        options_or_undefined initOptions].

(** [initEarthEngine(options)] *)
Definition initEarthEngine (options : gmap string jsval) : M S jsval :=
  let project := get options "project" in
  let baseUrl := get options "baseUrl" in
  authenticate options;;
  (let initOptions : gmap string jsval := ∅ in
   let initOptions := set_if_truthy "project" project initOptions in
   let initOptions := set_if_truthy "baseUrl" baseUrl initOptions in
   await_callback rt (initialize_call initOptions));;
  ret ee.

(** [initWithOAuth(options)] *)
Definition initWithOAuth (options : gmap string jsval) : M S jsval :=
  let clientId := get options "clientId" in
  let scopes := get_default options "scopes" Client.DEFAULT_SCOPES in
  let project := get options "project" in
  await_callback rt (oauth_call clientId scopes);;
  (let initOptions : gmap string jsval := ∅ in
   let initOptions := set_if_truthy "project" project initOptions in
   await_callback rt (initialize_call initOptions));;
  ret ee.
End ClientEarlier.
End ClientEarlier.


(** * Properties *)

(** ** Running the model by hand *)

Ltac unfold_run :=
  cbv [mbind mret M_bind M_ret bind ret throw try_catch
       invoke await_callback await_user get_prop static method js_String
       read_getApiBaseUrl app fst snd outcome_of trace_of state_of].

Ltac oracle_step :=
  match goal with
  | |- context [ee_callback ?rt ?s ?c] =>
      let r := fresh "r" in
      let s' := fresh "s" in
      destruct (ee_callback rt s c) as [r s'] eqn:?; destruct r
  | |- context [ee_call ?rt ?s ?c] =>
      let r := fresh "r" in
      let s' := fresh "s" in
      destruct (ee_call rt s c) as [r s'] eqn:?; destruct r
  | |- context [user_call ?rt ?s ?i ?a] =>
      let r := fresh "r" in
      let s' := fresh "s" in
      destruct (user_call rt s i a) as [r s'] eqn:?; destruct r
  | |- context [String_of ?rt ?s ?v] =>
      let r := fresh "r" in
      let s' := fresh "s" in
      destruct (String_of rt s v) as [r s'] eqn:?; destruct r
  | |- context [ee_data_getApiBaseUrl ?rt ?s] =>
      destruct (ee_data_getApiBaseUrl rt s) eqn:?
  end.

Ltac run := repeat (unfold_run; try oracle_step).

Ltac read_trace :=
  cbv [count is_call_to is_user_call event_target target succeeded error_of
       Client.private_key_call Client.set_token_call Client.initialize_call
       forallb andb orb String.eqb Ascii.eqb Bool.eqb Nat.add In].

Ltac case_events :=
  repeat match goal with
         | H : _ \/ _ |- _ => destruct H
         | H : False |- _ => destruct H
         | H : _ /\ _ |- _ => destruct H
         end.

Ltac settle :=
  first
    [ reflexivity
    | lia
    | discriminate
    | intros; case_events; subst;
      cbv [error_of succeeded is_call_to event_target target] in *;
      first [ discriminate | congruence | done ] ].

Ltac brute := run; read_trace; repeat split; settle.

(** ** The monad *)

Section Monad.
Context {S : Type}.

Lemma bind_ok {A B} (m : M S A) (k : A -> M S B) s a s1 l1 :
  m s = (Ok a, s1, l1) ->
  bind m k s = (outcome_of (k a s1), state_of (k a s1), l1 ++ trace_of (k a s1)).
Proof.
  intros Hm. unfold bind. rewrite Hm.
  destruct (k a s1) as [[o s2] l2]. reflexivity.
Qed.

Lemma bind_pure_ok {A B} (m : M S A) (k : A -> M S B) s a :
  m s = (Ok a, s, []) -> bind m k s = k a s.
Proof.
  intros Hm. unfold bind. rewrite Hm.
  destruct (k a s) as [[o s2] l2]. reflexivity.
Qed.

Lemma bind_err {A B} (m : M S A) (k : A -> M S B) s e s1 l1 :
  m s = (Err e, s1, l1) -> bind m k s = (Err e, s1, l1).
Proof. intros Hm. unfold bind. rewrite Hm. reflexivity. Qed.

Lemma bind_hang {A B} (m : M S A) (k : A -> M S B) s s1 l1 :
  m s = (Hang, s1, l1) -> bind m k s = (Hang, s1, l1).
Proof. intros Hm. unfold bind. rewrite Hm. reflexivity. Qed.

Lemma pure_ret {A} (a : A) : pure (ret (S:=S) a).
Proof. intros s. left. eexists. reflexivity. Qed.

Lemma pure_throw {A} e : pure (throw (S:=S) (A:=A) e).
Proof. intros s. right. eexists. reflexivity. Qed.

Lemma pure_bind {A B} (m : M S A) (k : A -> M S B) :
  pure m -> (forall a, pure (k a)) -> pure (bind m k).
Proof.
  intros Hm Hk s. destruct (Hm s) as [[a Ha] | [e He]].
  - rewrite (bind_pure_ok _ _ _ _ Ha). apply Hk.
  - right. exists e. apply bind_err. exact He.
Qed.

Lemma pure_try_catch {A} (m : M S A) (h : jsval -> M S A) :
  pure m -> (forall e, pure (h e)) -> pure (try_catch m h).
Proof.
  intros Hm Hh s. unfold try_catch.
  destruct (Hm s) as [[a Ha] | [e He]].
  - rewrite Ha. left. eexists. reflexivity.
  - rewrite He. destruct (Hh e s) as [[a Ha] | [e' He']].
    + rewrite Ha. left. eexists. reflexivity.
    + rewrite He'. right. eexists. reflexivity.
Qed.

Lemma pure_get_prop v k : pure (get_prop (S:=S) v k).
Proof. destruct v; first [apply pure_ret | apply pure_throw]. Qed.

(** A pure step in front of a continuation either stops the run with its
    exception or hands its value on without a trace. *)
Lemma bind_pure_cases {A B} (m : M S A) (k : A -> M S B) s :
  pure m ->
  (exists e, m s = (Err e, s, []) /\ bind m k s = (Err e, s, []))
  \/ (exists a, m s = (Ok a, s, []) /\ bind m k s = k a s).
Proof.
  intros Hm. destruct (Hm s) as [[a Ha] | [e He]].
  - right. exists a. split; [exact Ha | apply bind_pure_ok; exact Ha].
  - left. exists e. split; [exact He | apply bind_err; exact He].
Qed.
End Monad.

(** ** Counting in a record of calls *)

Lemma count_app p l1 l2 : count p (l1 ++ l2) = count p l1 + count p l2.
Proof. induction l1 as [|ev l1 IH]; simpl; [reflexivity | rewrite IH; lia]. Qed.

Lemma count_zero_not_in p l ev : count p l = 0 -> In ev l -> p ev = false.
Proof.
  induction l as [|x l IH]; simpl; [tauto|].
  intros Hc [-> | Hin].
  - destruct (p ev); [discriminate | reflexivity].
  - apply IH; [|exact Hin]. destruct (p x); [discriminate | exact Hc].
Qed.

(** ** [trim] *)

(** White space of more than one byte is removed as well, and only white
    space is: U+00A0 and U+2028 go, U+200B stays. *)
Example trim_beyond_ascii :
  trim (utf8 [194; 160] ++ "my-project" ++ utf8 [226; 128; 168; 32]) = "my-project"
  /\ trim (utf8 [194; 160]) = ""
  /\ trim (utf8 [226; 128; 139]) = utf8 [226; 128; 139].
Proof. repeat split; reflexivity. Qed.

(** [t.trim() || null] *)
Lemma trimmed_or_null t :
  js_or (VStr (trim t)) VNull
  = if String.eqb (trim t) "" then VNull else VStr (trim t).
Proof. unfold js_or. simpl. destruct (String.eqb (trim t) ""); reflexivity. Qed.

(** ** The client module: how a run is put together *)

Section ClientShape.
Context {S : Type} (rt : runtime S).

Lemma pure_parseServiceAccountKey keyInput :
  pure (Client.parseServiceAccountKey rt keyInput).
Proof.
  destruct keyInput; try apply pure_ret.
  apply pure_try_catch; [|intros; apply pure_throw].
  apply pure_bind.
  { destruct (JSON_parse rt s); [apply pure_ret | apply pure_throw]. }
  intros parsed. repeat (apply pure_bind; [apply pure_get_prop | intros ?]).
  apply pure_ret.
Qed.

(** A key that is not text is handed back as it is; a text that
    [JSON.parse] rejects gives the fixed error. *)
Lemma parse_passes_objects_through keyInput s :
  typeof keyInput <> "string" ->
  Client.parseServiceAccountKey rt keyInput s = (Ok keyInput, s, []).
Proof. destruct keyInput; intros H; try reflexivity. contradiction H; reflexivity. Qed.

Lemma parse_rejects_malformed text s :
  JSON_parse rt text = None ->
  Client.parseServiceAccountKey rt (VStr text) s
  = (Err (VError "Failed to parse service account JSON key"), s, []).
Proof. intros H. cbv [Client.parseServiceAccountKey]. unfold_run. rewrite H. reflexivity. Qed.

Lemma parse_reads_object text fields s :
  JSON_parse rt text = Some (VObj fields) ->
  Client.parseServiceAccountKey rt (VStr text) s
  = (Ok (VObj {[ "email" := get fields "client_email";
                 "privateKey" := get fields "private_key";
                 "projectId" := get fields "project_id" ]}), s, []).
Proof. intros H. cbv [Client.parseServiceAccountKey]. unfold_run. rewrite H. reflexivity. Qed.

(** The only exception [parseServiceAccountKey] raises is the fixed one. *)
Lemma parse_error_is_fixed keyInput s e s1 l :
  Client.parseServiceAccountKey rt keyInput s = (Err e, s1, l) ->
  e = VError "Failed to parse service account JSON key".
Proof.
  destruct keyInput; try discriminate.
  cbv [Client.parseServiceAccountKey]. unfold_run.
  destruct (JSON_parse rt s0) as [parsed|]; [destruct parsed|]; congruence.
Qed.

(** The authentication step with a bundled key: parsing stops the run, or
    one call of [authenticateViaPrivateKey] is made with what was read. *)
Lemma authenticate_bundled options s :
  truthy (get options "email") && truthy (get options "privateKey") = false ->
  truthy (get options "privateKeyJson") = true ->
  (exists e,
      Client.parseServiceAccountKey rt (get options "privateKeyJson") s = (Err e, s, [])
      /\ Client.authenticate rt options s = (Err e, s, []))
  \/ (exists key credentials,
        Client.parseServiceAccountKey rt (get options "privateKeyJson") s = (Ok key, s, [])
        /\ key <> VUndefined /\ key <> VNull
        /\ credentials !! "client_email" = Some (peek key "email")
        /\ credentials !! "private_key" = Some (peek key "privateKey")
        /\ Client.authenticate rt options s
           = Client.authenticateViaPrivateKey rt credentials s).
Proof.
  intros Hpair Hjson. unfold Client.authenticate. rewrite Hpair, Hjson.
  destruct (bind_pure_cases
              (Client.parseServiceAccountKey rt (get options "privateKeyJson"))
              (fun parsedCredentials =>
                 parsed_email ← get_prop parsedCredentials "email";
                 parsed_privateKey ← get_prop parsedCredentials "privateKey";
                 let credentials : gmap string jsval :=
                   {[ "client_email" := parsed_email;
                      "private_key" := parsed_privateKey ]} in
                 match Client.usable_project (get options "project") with
                 | Some p =>
                     Client.authenticateViaPrivateKey rt
                       (set "project_id" (VStr (trim p)) credentials)
                 | None =>
                     parsed_projectId ← get_prop parsedCredentials "projectId";
                     Client.authenticateViaPrivateKey rt
                       (set_if_truthy "project_id" parsed_projectId credentials)
                 end) s (pure_parseServiceAccountKey _))
    as [(e & Hparse & Hrun) | (key & Hparse & Hrun)].
  { left. exists e. split; [exact Hparse | exact Hrun]. }
  right. exists key.
  assert (Hkey : key <> VUndefined /\ key <> VNull).
  { destruct (get options "privateKeyJson") eqn:Hk; try discriminate Hjson;
      try (rewrite parse_passes_objects_through in Hparse by discriminate;
           injection Hparse as <-; split; discriminate).
    revert Hparse. cbv [Client.parseServiceAccountKey]. unfold_run.
    destruct (JSON_parse rt s0) as [parsed|]; [destruct parsed|];
      intros [= <-]; split; discriminate. }
  unfold mbind, M_bind in Hrun |- *. rewrite Hrun. clear Hrun.
  destruct key; try (exfalso; tauto);
    repeat (erewrite bind_pure_ok by reflexivity);
    (destruct (Client.usable_project (get options "project"));
     [ | erewrite bind_pure_ok by reflexivity;
         unfold set_if_truthy;
         match goal with
         | |- context [truthy ?v] => destruct (truthy v)
         end ]);
    eexists; (split; [eassumption|]); (split; [tauto|]); (split; [tauto|]);
    (split; [|split; [|reflexivity]]);
    unfold set; simplify_map_eq; reflexivity.
Qed.

(** The authentication step with an explicit pair. *)
Lemma authenticate_pair options s :
  truthy (get options "email") && truthy (get options "privateKey") = true ->
  exists credentials,
    credentials !! "client_email" = Some (get options "email")
    /\ credentials !! "private_key" = Some (get options "privateKey")
    /\ Client.authenticate rt options s
       = Client.authenticateViaPrivateKey rt credentials s.
Proof.
  intros Hpair. unfold Client.authenticate. rewrite Hpair.
  destruct (Client.usable_project (get options "project"));
    eexists; (split; [|split; [|reflexivity]]);
    unfold set; simplify_map_eq; reflexivity.
Qed.

(** The authentication step with a token supplier. *)
Lemma authenticate_supplier options s :
  truthy (get options "email") && truthy (get options "privateKey") = false ->
  truthy (get options "privateKeyJson") = false ->
  truthy (get options "tokenRetriever") = true ->
  Client.authenticate rt options s
  = (token ← await_user rt (get options "tokenRetriever") [];
     invoke rt (Client.set_token_call token);;
     ret tt) s.
Proof.
  intros Hpair Hjson Htoken. unfold Client.authenticate.
  rewrite Hpair, Hjson, Htoken. reflexivity.
Qed.

(** No credentials: no authentication step. *)
Lemma authenticate_none options s :
  truthy (get options "email") && truthy (get options "privateKey") = false ->
  truthy (get options "privateKeyJson") = false ->
  truthy (get options "tokenRetriever") = false ->
  Client.authenticate rt options s = (Ok tt, s, []).
Proof.
  intros Hpair Hjson Htoken. unfold Client.authenticate.
  rewrite Hpair, Hjson, Htoken. reflexivity.
Qed.

(** The four ways the authentication step can go. *)
Lemma authenticate_shape options s :
  Client.authenticate rt options s = (Ok tt, s, [])
  \/ (exists e, Client.authenticate rt options s = (Err e, s, []))
  \/ (exists credentials,
        Client.authenticate rt options s
        = Client.authenticateViaPrivateKey rt credentials s)
  \/ (exists f,
        Client.authenticate rt options s
        = (token ← await_user rt f [];
           invoke rt (Client.set_token_call token);;
           ret tt) s).
Proof.
  destruct (truthy (get options "email") && truthy (get options "privateKey"))
    eqn:Hpair.
  { destruct (authenticate_pair options s Hpair) as (c & _ & _ & H). eauto 6. }
  destruct (truthy (get options "privateKeyJson")) eqn:Hjson.
  { destruct (authenticate_bundled options s Hpair Hjson)
      as [(e & _ & H) | (key & c & _ & _ & _ & _ & _ & H)]; eauto 6. }
  destruct (truthy (get options "tokenRetriever")) eqn:Htoken.
  { right. right. right. eexists. apply authenticate_supplier; assumption. }
  left. apply authenticate_none; assumption.
Qed.

(** What every run of the authentication step has in common. *)
Lemma authenticate_facts options s :
  let r := Client.authenticate rt options s in
  count (is_call_to "ee.initialize") (trace_of r) = 0
  /\ count (is_call_to "ee.data.authenticateViaPrivateKey") (trace_of r) <= 1
  /\ count (is_call_to "ee.data.setAuthToken") (trace_of r) <= 1
  /\ count is_user_call (trace_of r) <= 1
  /\ (forall u, outcome_of r = Ok u -> forallb succeeded (trace_of r) = true)
  /\ (forall ev e, In ev (trace_of r) -> error_of ev = Some e ->
                   outcome_of r = Err e).
Proof.
  cbv zeta.
  destruct (authenticate_shape options s)
    as [H | [(e & H) | [(c & H) | (f & H)]]]; rewrite H; clear H.
  - brute.
  - brute.
  - unfold Client.authenticateViaPrivateKey. brute.
  - destruct f; brute.
Qed.

Lemma pure_project_value project : pure (Client.project_value (S:=S) project).
Proof.
  unfold Client.project_value.
  destruct (truthy project); [destruct project|];
    first [apply pure_ret | apply pure_throw].
Qed.

(** Converting the base URL makes no call; it gives a value or throws. *)
Lemma base_url_value_cases baseUrl s :
  (exists e s1, Client.base_url_value rt baseUrl s = (Err e, s1, []))
  \/ (exists b s1, Client.base_url_value rt baseUrl s = (Ok b, s1, [])).
Proof.
  unfold Client.base_url_value.
  destruct (truthy baseUrl); [|right; do 2 eexists; reflexivity].
  destruct baseUrl; run;
    first [ right; do 2 eexists; reflexivity | left; do 2 eexists; reflexivity ].
Qed.

(** The initialization step: the type check or the conversion of the base
    URL stops it, or one call of [ee.initialize] is made and decides how it
    ends. *)
Lemma initialize_shape options s :
  (exists e s1, Client.initialize rt options s = (Err e, s1, []))
  \/ (exists baseUrlValue projectValue s1,
        Client.initialize rt options s
        = Client.ee_initialize rt baseUrlValue projectValue s1).
Proof.
  unfold Client.initialize. unfold mbind, M_bind.
  destruct (bind_pure_cases
              (Client.project_value (get options "project"))
              (fun projectValue =>
                 bind (Client.base_url_value rt (get options "baseUrl"))
                   (fun baseUrlValue =>
                      Client.ee_initialize rt baseUrlValue projectValue))
              s (pure_project_value _))
    as [(e & _ & ->) | (p & _ & ->)]; [left; eauto|].
  destruct (base_url_value_cases (get options "baseUrl") s)
    as [(e & s1 & H) | (b & s1 & H)].
  - left. exists e, s1. apply bind_err. exact H.
  - right. exists b, p, s1. rewrite (bind_ok _ _ _ _ _ _ H).
    destruct (Client.ee_initialize rt b p s1) as [[o s2] l]. reflexivity.
Qed.

Lemma initialize_facts options s :
  let r := Client.initialize rt options s in
  count (is_call_to "ee.initialize") (trace_of r) <= 1
  /\ count (is_call_to "ee.data.authenticateViaPrivateKey") (trace_of r) = 0
  /\ count (is_call_to "ee.data.setAuthToken") (trace_of r) = 0
  /\ count is_user_call (trace_of r) = 0
  /\ (forall ev, In ev (trace_of r) ->
                 trace_of r = [ev] /\ is_call_to "ee.initialize" ev = true)
  /\ (forall ev e, In ev (trace_of r) -> error_of ev = Some e ->
                   outcome_of r = Err e).
Proof.
  cbv zeta.
  destruct (initialize_shape options s) as [(e & s1 & H) | (b & p & s1 & H)];
    rewrite H; clear H.
  - brute.
  - unfold Client.ee_initialize. brute.
Qed.

(** [initEarthEngine] is the two steps one after the other. *)
Lemma initEarthEngine_steps options s :
  Client.initEarthEngine rt options s
  = match Client.authenticate rt options s with
    | (Ok _, s1, l1) =>
        match Client.initialize rt options s1 with
        | (Ok _, s2, l2) => (Ok ee, s2, l1 ++ l2)
        | (Err e, s2, l2) => (Err e, s2, l1 ++ l2)
        | (Hang, s2, l2) => (Hang, s2, l1 ++ l2)
        end
    | (Err e, s1, l1) => (Err e, s1, l1)
    | (Hang, s1, l1) => (Hang, s1, l1)
    end.
Proof.
  cbv [Client.initEarthEngine mbind M_bind bind mret M_ret ret].
  destruct (Client.authenticate rt options s) as [[[u | e |] s1] l1];
    try reflexivity.
  destruct (Client.initialize rt options s1) as [[[u' | e |] s2] l2];
    try reflexivity.
  rewrite app_nil_r. reflexivity.
Qed.
End ClientShape.

(** ** The client module: the initialization sequence *)

Section ClientSequence.
Context {S : Type} (rt : runtime S).

Lemma split_at_last_call (p : event -> bool) l1 x before after :
  count p l1 = 0 -> p x = true ->
  l1 ++ [x] = before ++ x :: after ->
  after = [] /\ before = l1.
Proof.
  revert before. induction l1 as [|y l1 IH]; intros before Hc Hx Heq.
  - destruct before as [|z before]; simpl in Heq.
    + injection Heq as <-. split; reflexivity.
    + injection Heq as _ Heq. destruct before; discriminate.
  - simpl in Hc. destruct (p y) eqn:Hy; [discriminate|].
    destruct before as [|z before]; simpl in Heq.
    + injection Heq as -> _. congruence.
    + injection Heq as <- Heq.
      destruct (IH before Hc Hx Heq) as [-> ->]. split; reflexivity.
Qed.

(** An error that any call of a run of [initEarthEngine] ended with is
    the error the run ends with. *)
Lemma initEarthEngine_first_error options s ev e :
  In ev (trace_of (Client.initEarthEngine rt options s)) ->
  error_of ev = Some e ->
  outcome_of (Client.initEarthEngine rt options s) = Err e.
Proof.
  rewrite initEarthEngine_steps.
  pose proof (authenticate_facts rt options s) as (_ & _ & _ & _ & _ & Hauth).
  cbv zeta in Hauth.
  destruct (Client.authenticate rt options s) as [[[u | e1 |] s1] l1];
    cbv [trace_of outcome_of snd fst] in *;
    try (intros Hin Herr; specialize (Hauth ev e Hin Herr); congruence).
  pose proof (initialize_facts rt options s1) as (_ & _ & _ & _ & _ & Hinit).
  cbv zeta in Hinit.
  destruct (Client.initialize rt options s1) as [[[u' | e2 |] s2] l2];
    cbv [trace_of outcome_of snd fst] in *;
    intros [Hin | Hin]%in_app_or Herr;
    first [ specialize (Hauth ev e Hin Herr); congruence
          | specialize (Hinit ev e Hin Herr); congruence ].
Qed.
End ClientSequence.

(** C2. In every call of [initEarthEngine] each entry point of the wrapped
    library is called at most once; a call of [ee.initialize] is the last
    call of the run and comes after the whole authentication step, which
    has then completed with every call of it succeeding; and if the
    authentication step fails, the run ends there, rejecting with that
    error, without a call of [ee.initialize]. *)
Theorem authentication_completes_before_initialize
    {S : Type} (rt : runtime S) (options : gmap string jsval) (s : S) :
  let auth := Client.authenticate rt options s in
  let r := Client.initEarthEngine rt options s in
  (count (is_call_to "ee.data.authenticateViaPrivateKey") (trace_of r) <= 1
   /\ count (is_call_to "ee.data.setAuthToken") (trace_of r) <= 1
   /\ count is_user_call (trace_of r) <= 1
   /\ count (is_call_to "ee.initialize") (trace_of r) <= 1)
  /\ (forall before ev after,
        trace_of r = before ++ ev :: after ->
        is_call_to "ee.initialize" ev = true ->
        after = [] /\ before = trace_of auth
        /\ outcome_of auth = Ok tt /\ forallb succeeded before = true)
  /\ (forall e,
        outcome_of auth = Err e ->
        outcome_of r = Err e /\ trace_of r = trace_of auth
        /\ count (is_call_to "ee.initialize") (trace_of r) = 0)
  /\ (forall ev e,
        In ev (trace_of r) -> is_call_to "ee.initialize" ev = false ->
        error_of ev = Some e ->
        outcome_of r = Err e
        /\ count (is_call_to "ee.initialize") (trace_of r) = 0).
Proof.
  cbv zeta.
  pose proof (initEarthEngine_first_error rt options s) as Hfirst.
  revert Hfirst. rewrite initEarthEngine_steps.
  pose proof (authenticate_facts rt options s)
    as (Ha0 & Ha1 & Ha2 & Ha3 & Haok & Haerr).
  cbv zeta in Ha0, Ha1, Ha2, Ha3, Haok, Haerr.
  destruct (Client.authenticate rt options s) as [[[[] | e1 |] s1] l1];
    cbv [trace_of outcome_of snd fst] in *.
  2,3: intros Hfirst;
    (split; [repeat split; first [assumption | lia] | ]);
    (split;
     [ intros before ev after -> Hev;
       rewrite count_app in Ha0; simpl in Ha0; rewrite Hev in Ha0; lia
     | ]);
    (split;
     [ intros e He;
       first [ discriminate He
             | injection He as <-; repeat split; first [reflexivity | exact Ha0] ]
     | ]);
    intros ev e Hin _ Herr; (split; [exact (Hfirst ev e Hin Herr) | exact Ha0]).
  pose proof (initialize_facts rt options s1)
    as (Hi0 & Hi1 & Hi2 & Hi3 & Hionly & Hierr).
  cbv zeta in Hi0, Hi1, Hi2, Hi3, Hionly, Hierr.
  destruct (Client.initialize rt options s1) as [[[u' | e2 |] s2] l2];
    cbv [trace_of outcome_of snd fst] in *; intros Hfirst.
  all: split;
    [ rewrite !count_app; lia | ].
  all: split;
    [ intros before ev after Heq Hev;
      assert (Hl2 : l2 = [ev]);
      [ assert (Hin : In ev (l1 ++ l2)) by (rewrite Heq; apply in_elt);
        apply in_app_or in Hin as [Hin | Hin];
        [ rewrite (count_zero_not_in _ _ _ Ha0 Hin) in Hev; discriminate
        | exact (proj1 (Hionly ev Hin)) ]
      | subst l2;
        destruct (split_at_last_call _ _ _ _ _ Ha0 Hev Heq) as [-> ->];
        repeat split; try reflexivity; exact (Haok tt eq_refl) ]
    | ].
  all: split; [ intros e; discriminate | ].
  all: intros ev e Hin Hnot Herr; split; [ exact (Hfirst ev e Hin Herr) | ].
  all: apply in_app_or in Hin as [Hin | Hin];
    [ discriminate (Haerr ev e Hin Herr)
    | rewrite (proj2 (Hionly ev Hin)) in Hnot; discriminate ].
Qed.

(** C5. An error that the wrapped library hands to the failure callback
    during the authentication or the initialization of [initEarthEngine] or
    of [initWithOAuth] is, unchanged, the error the returned promise
    rejects with. *)
Theorem failure_callback_error_is_forwarded
    {S : Type} (rt : runtime S) (options : gmap string jsval) (s : S)
    (c : call) (e : jsval) :
  (In (EvCallback c (CbFailure e)) (trace_of (Client.initEarthEngine rt options s)) ->
   outcome_of (Client.initEarthEngine rt options s) = Err e)
  /\ (In (EvCallback c (CbFailure e)) (trace_of (Client.initWithOAuth rt options s)) ->
      outcome_of (Client.initWithOAuth rt options s) = Err e).
Proof.
  split.
  - intros Hin. exact (initEarthEngine_first_error rt options s _ e Hin eq_refl).
  - unfold Client.initWithOAuth, Client.ee_initialize.
    destruct (Client.usable_project (get options "project")); run;
      cbv [In]; intros Hin; case_events; congruence.
Qed.

Lemma failure_callback_error_is_forwarded_witness :
  outcome_of
    (Client.initEarthEngine
       (mock_failing "ee.data.authenticateViaPrivateKey"
                     (VError "Authentication failed"))
       {[ "privateKeyJson" :=
            VObj {[ "email" := VStr "test@example.iam.gserviceaccount.com";
                    "privateKey" := VStr "MOCK KEY" ]} ]} tt)
  = Err (VError "Authentication failed").
Proof.
  refine (proj1 (failure_callback_error_is_forwarded
                   (mock_failing "ee.data.authenticateViaPrivateKey"
                                 (VError "Authentication failed"))
                   {[ "privateKeyJson" :=
                        VObj {[ "email" := VStr "test@example.iam.gserviceaccount.com";
                                "privateKey" := VStr "MOCK KEY" ]} ]} tt
                   (Client.private_key_call
                      {[ "client_email" := VStr "test@example.iam.gserviceaccount.com";
                         "private_key" := VStr "MOCK KEY" ]})
                   (VError "Authentication failed")) _).
  left. reflexivity.
Defined.

(** C4. When the key that [initEarthEngine] selects is a text that
    [JSON.parse] rejects, the returned promise rejects with the error
    'Failed to parse service account JSON key', and the run makes no call of
    the wrapped library at all. *)
Theorem malformed_key_is_rejected_before_any_call
    {S : Type} (rt : runtime S) (options : gmap string jsval) (s : S)
    (text : string) :
  truthy (get options "email") && truthy (get options "privateKey") = false ->
  get options "privateKeyJson" = VStr text ->
  truthy (VStr text) = true ->
  JSON_parse rt text = None ->
  Client.initEarthEngine rt options s
  = (Err (VError "Failed to parse service account JSON key"), s, []).
Proof.
  intros Hpair Hkey Htruthy Hparse.
  rewrite initEarthEngine_steps.
  rewrite <- Hkey in Htruthy.
  destruct (authenticate_bundled rt options s Hpair Htruthy)
    as [(e & He & ->) | (key & credentials & Hok & _)].
  - rewrite Hkey, (parse_rejects_malformed rt text s Hparse) in He.
    injection He as <-. reflexivity.
  - rewrite Hkey, (parse_rejects_malformed rt text s Hparse) in Hok.
    discriminate.
Qed.

Lemma malformed_key_is_rejected_before_any_call_witness :
  Client.initEarthEngine mock_ee {[ "privateKeyJson" := VStr "not-valid-json" ]} tt
  = (Err (VError "Failed to parse service account JSON key"), tt, []).
Proof.
  apply (malformed_key_is_rejected_before_any_call mock_ee _ tt "not-valid-json");
    reflexivity.
Defined.

(** C7, as it is stated, fails: a project that is present but falsy, such
    as the number 0, is not a string, and yet [ee.initialize] is called and
    the promise is fulfilled. *)
Lemma present_falsy_project_counterexample :
  ~ (forall (options : gmap string jsval) (project : jsval),
        options !! "project" = Some project ->
        project <> VUndefined ->
        typeof project <> "string" ->
        outcome_of (Client.initEarthEngine mock_ee options tt)
        = Err (VError ("Project must be a string, got " +:+ typeof project))
        /\ count (is_call_to "ee.initialize")
                 (trace_of (Client.initEarthEngine mock_ee options tt)) = 0).
Proof.
  intros H.
  destruct (H {[ "project" := VNum 0 ]} (VNum 0)) as [Hout _];
    [reflexivity | discriminate | discriminate |].
  vm_compute in Hout. discriminate.
Qed.

(** C7, amended. When the project option is truthy and not a string, no
    run of [initEarthEngine] calls [ee.initialize] or is fulfilled, and a
    run whose authentication step completes rejects with 'Project must be a
    string, got <typeof project>' without any further call. *)
Theorem truthy_non_string_project_is_rejected
    {S : Type} (rt : runtime S) (options : gmap string jsval) (s : S) :
  truthy (get options "project") = true ->
  typeof (get options "project") <> "string" ->
  count (is_call_to "ee.initialize")
        (trace_of (Client.initEarthEngine rt options s)) = 0
  /\ (forall v, outcome_of (Client.initEarthEngine rt options s) <> Ok v)
  /\ (forall s1 tr,
        Client.authenticate rt options s = (Ok tt, s1, tr) ->
        Client.initEarthEngine rt options s
        = (Err (VError ("Project must be a string, got "
                        +:+ typeof (get options "project"))), s1, tr)).
Proof.
  intros Htruthy Htype.
  assert (Hinit : forall s1,
             Client.initialize rt options s1
             = (Err (VError ("Project must be a string, got "
                             +:+ typeof (get options "project"))), s1, [])).
  { intros s1. unfold Client.initialize, Client.project_value. rewrite Htruthy.
    destruct (get options "project"); try reflexivity.
    contradiction Htype. reflexivity. }
  rewrite initEarthEngine_steps.
  pose proof (authenticate_facts rt options s) as (Ha0 & _).
  cbv zeta in Ha0.
  destruct (Client.authenticate rt options s) as [[[[] | e1 |] s1] l1];
    cbv [trace_of outcome_of snd fst] in *.
  - rewrite Hinit. rewrite app_nil_r. split; [exact Ha0|].
    split; [discriminate|].
    intros s2 tr [= -> ->]. reflexivity.
  - split; [exact Ha0 | split; discriminate].
  - split; [exact Ha0 | split; discriminate].
Qed.

Lemma truthy_non_string_project_is_rejected_witness :
  Client.initEarthEngine mock_ee {[ "project" := VNum 42 ]} tt
  = (Err (VError "Project must be a string, got number"), tt, []).
Proof.
  refine (proj2 (proj2 (truthy_non_string_project_is_rejected
                          mock_ee {[ "project" := VNum 42 ]} tt _ _)) tt [] _).
  - reflexivity.
  - discriminate.
  - reflexivity.
Defined.

(** ** The project option *)

Section Project.
Context {S : Type} (rt : runtime S).

(** In [initEarthEngine] a text project reaches [ee.initialize] trimmed,
    and a text of which nothing is left reaches it as [null]. *)
Lemma initEarthEngine_project_trimmed options s p ev :
  get options "project" = VStr p ->
  In ev (trace_of (Client.initEarthEngine rt options s)) ->
  is_call_to "ee.initialize" ev = true ->
  initializes_with (if String.eqb (trim p) "" then VNull else VStr (trim p)) ev.
Proof.
  intros Hp. rewrite initEarthEngine_steps.
  pose proof (authenticate_facts rt options s) as (Ha0 & _).
  cbv zeta in Ha0.
  assert (Hinit : forall s1 ev,
             In ev (trace_of (Client.initialize rt options s1)) ->
             initializes_with
               (if String.eqb (trim p) "" then VNull else VStr (trim p)) ev).
  { intros s1 ev'. unfold Client.initialize, Client.project_value. rewrite Hp.
    assert (Hvalue : (if truthy (VStr p)
                      then js_or (VStr (trim p)) VNull else VNull)
                     = if String.eqb (trim p) "" then VNull else VStr (trim p)).
    { rewrite trimmed_or_null. destruct p; reflexivity. }
    assert (Hrun : (if truthy (VStr p)
                    then ret (S:=S) (js_or (VStr (trim p)) VNull) else ret VNull)
                   = ret (if String.eqb (trim p) "" then VNull else VStr (trim p))).
    { rewrite <- Hvalue. destruct (truthy (VStr p)); reflexivity. }
    rewrite Hrun. unfold mbind, M_bind.
    erewrite bind_pure_ok by reflexivity.
    destruct (base_url_value_cases rt (get options "baseUrl") s1)
      as [(e & s2 & H) | (b & s2 & H)].
    - rewrite (bind_err _ _ _ _ _ _ H). intros [].
    - rewrite (bind_ok _ _ _ _ _ _ H). unfold Client.ee_initialize.
      run; cbv [In]; intros [<- | []]; do 2 eexists; reflexivity. }
  destruct (Client.authenticate rt options s) as [[[[] | e1 |] s1] l1];
    cbv [trace_of outcome_of snd fst] in Ha0 |- *;
    try (intros Hin Hev; rewrite (count_zero_not_in _ _ _ Ha0 Hin) in Hev;
         discriminate).
  specialize (Hinit s1).
  destruct (Client.initialize rt options s1) as [[[u' | e2 |] s2] l2];
    cbv [trace_of outcome_of snd fst] in Hinit |- *;
    (intros [Hin | Hin]%in_app_or Hev;
     [ rewrite (count_zero_not_in _ _ _ Ha0 Hin) in Hev; discriminate
     | exact (Hinit ev Hin) ]).
Qed.

(** In [initWithOAuth] a text project that is not empty reaches
    [ee.initialize] trimmed, also when nothing is left of it. *)
Lemma initWithOAuth_project_trimmed options s p ev :
  get options "project" = VStr p -> p <> "" ->
  In ev (trace_of (Client.initWithOAuth rt options s)) ->
  is_call_to "ee.initialize" ev = true ->
  initializes_with (VStr (trim p)) ev.
Proof.
  intros Hp Hne. unfold Client.initWithOAuth, Client.ee_initialize.
  rewrite Hp. simpl Client.usable_project.
  destruct p as [|ch p]; [contradiction Hne; reflexivity|]. simpl negb. cbv iota.
  run; read_trace; intros; case_events; subst; try discriminate;
    do 2 eexists; reflexivity.
Qed.
End Project.

(** C9 at the input on which the two entry points part: with the project
    made of three spaces, [initEarthEngine] gives [ee.initialize] [null]
    for the project, [initWithOAuth] gives it the empty text. *)
Lemma blank_project_reaches_initialize :
  trace_of (Client.initEarthEngine mock_ee {[ "project" := VStr "   " ]} tt)
  = [EvCallback (Client.initialize_call VNull VNull) CbSuccess]
  /\ trace_of (Client.initWithOAuth mock_ee
                 {[ "clientId" := VStr "client-id"; "project" := VStr "   " ]} tt)
     = [EvCallback
          (Call "ee.data.authenticateViaOauth" ee_data
                [VStr "client-id"; on_success; on_failure; Client.DEFAULT_SCOPES;
                 VNull]) CbSuccess;
        EvCallback (Client.initialize_call VNull (VStr "")) CbSuccess].
Proof. split; reflexivity. Qed.

(** C10. [isInitialized] always returns a boolean and never throws; the
    boolean is [true] exactly when [ee.data.getApiBaseUrl] is a function
    and calling it returns something other than [null]; it is [false]
    whenever reading the member or calling it throws. *)
Theorem isInitialized_is_total {S : Type} (rt : runtime S) (s : S) :
  exists b,
    outcome_of (Client.isInitialized rt s) = Ok b
    /\ (b = true <->
        exists member url,
          ee_data_getApiBaseUrl rt s = Returns member
          /\ typeof member = "function"
          /\ (ee_call rt s (Call "ee.data.getApiBaseUrl" ee_data [])).1 = Returns url
          /\ url <> VNull)
    /\ (forall e, ee_data_getApiBaseUrl rt s = Throws e -> b = false)
    /\ (forall e,
          (ee_call rt s (Call "ee.data.getApiBaseUrl" ee_data [])).1 = Throws e ->
          b = false).
Proof.
  unfold Client.isInitialized. unfold_run.
  destruct (ee_data_getApiBaseUrl rt s) as [member | e0] eqn:Hread.
  2:{ exists false. split; [reflexivity|]. split.
      - split; [discriminate|]. intros (m & u & Hm & _). discriminate.
      - split; reflexivity. }
  destruct (String.eqb (typeof member) "function") eqn:Hfun.
  2:{ exists false. split; [reflexivity|]. split.
      - split; [discriminate|]. intros (m & u & [= <-] & Ht & _).
        rewrite Ht in Hfun. discriminate.
      - split; [discriminate | reflexivity]. }
  apply String.eqb_eq in Hfun.
  destruct (ee_call rt s (Call "ee.data.getApiBaseUrl" ee_data []))
    as [[url | e0] s1] eqn:Hcall; cbv [fst].
  2:{ exists false. split; [reflexivity|]. split.
      - split; [discriminate|]. intros (m & u & _ & _ & Hu & _). discriminate.
      - split; [discriminate | reflexivity]. }
  exists (match url with VNull => false | _ => true end).
  split; [reflexivity|]. split.
  - split.
    + intros Hb. exists member, url. repeat split; try assumption; try reflexivity.
      intros ->. discriminate.
    + intros (m & u & _ & _ & [= <-] & Hu). destruct url; try reflexivity.
      contradiction Hu; reflexivity.
  - split; discriminate.
Qed.

(** ** The choice of credentials *)

Section Priority.
Context {S : Type} (rt : runtime S).

Lemma initialize_only_initializes options s :
  forallb (is_call_to "ee.initialize")
          (trace_of (Client.initialize rt options s)) = true.
Proof.
  destruct (initialize_shape rt options s) as [(e & s1 & H) | (b & p & s1 & H)];
    rewrite H; clear H.
  - reflexivity.
  - unfold Client.ee_initialize. run; reflexivity.
Qed.

(** A record of calls of [ee.initialize] holds no call of anything else. *)
Lemma only_initialize rest :
  forallb (is_call_to "ee.initialize") rest = true ->
  count is_user_call rest = 0
  /\ (forall name, name <> "ee.initialize" ->
                   count (is_call_to name) rest = 0).
Proof.
  induction rest as [|x rest IH]; [intros _; split; reflexivity|].
  simpl. intros [Hx Hrest]%andb_prop. destruct (IH Hrest) as [IH1 IH2].
  destruct x as [c r | c r | f a r]; try discriminate Hx;
    cbv [is_call_to event_target] in Hx |- *; apply String.eqb_eq in Hx;
    rewrite Hx; (split; [exact IH1|]); intros name Hname;
    (destruct (String.eqb_spec "ee.initialize" name) as [Heq | _];
     [contradiction Hname; symmetry; exact Heq | apply IH2; exact Hname]).
Qed.

(** A run of [initEarthEngine] is the authentication step followed by
    calls of [ee.initialize] only, and by nothing unless that step
    completed. *)
Lemma initEarthEngine_continues options s :
  exists rest,
    trace_of (Client.initEarthEngine rt options s)
    = trace_of (Client.authenticate rt options s) ++ rest
    /\ forallb (is_call_to "ee.initialize") rest = true
    /\ (forall e, outcome_of (Client.authenticate rt options s) = Err e ->
                  rest = []
                  /\ outcome_of (Client.initEarthEngine rt options s) = Err e)
    /\ (outcome_of (Client.authenticate rt options s) = Hang ->
        rest = [] /\ outcome_of (Client.initEarthEngine rt options s) = Hang).
Proof.
  rewrite initEarthEngine_steps.
  destruct (Client.authenticate rt options s) as [[[[] | e1 |] s1] l1].
  - pose proof (initialize_only_initializes options s1) as Hinit.
    destruct (Client.initialize rt options s1) as [[[u' | e2 |] s2] l2];
      exists l2; cbv [trace_of outcome_of snd fst] in *;
      (split; [reflexivity|]); (split; [exact Hinit|]); split; discriminate.
  - exists []. cbv [trace_of outcome_of snd fst].
    split; [symmetry; apply app_nil_r|]. split; [reflexivity|].
    split; [intros e [= <-]; split; reflexivity | discriminate].
  - exists []. cbv [trace_of outcome_of snd fst].
    split; [symmetry; apply app_nil_r|]. split; [reflexivity|].
    split; [discriminate | split; reflexivity].
Qed.

(** With no credentials at all the run is the initialization step. *)
Lemma initEarthEngine_without_credentials options s :
  truthy (get options "email") && truthy (get options "privateKey") = false ->
  truthy (get options "privateKeyJson") = false ->
  truthy (get options "tokenRetriever") = false ->
  Client.initEarthEngine rt options s
  = (Client.initialize rt options;; ret ee) s.
Proof.
  intros Hpair Hjson Htoken. unfold Client.initEarthEngine.
  exact (bind_pure_ok (Client.authenticate rt options)
           (fun _ => Client.initialize rt options;; ret ee) s tt
           (authenticate_none rt options s Hpair Hjson Htoken)).
Qed.

(** With an explicit pair the run reads neither the bundled key nor the
    token supplier. *)
Lemma pair_ignores_the_rest options other s :
  truthy (get options "email") && truthy (get options "privateKey") = true ->
  (forall k, k <> "privateKeyJson" -> k <> "tokenRetriever" ->
             get other k = get options k) ->
  Client.initEarthEngine rt other s = Client.initEarthEngine rt options s.
Proof.
  intros Hpair Hsame.
  unfold Client.initEarthEngine, Client.authenticate, Client.initialize.
  rewrite !(Hsame "email"), !(Hsame "privateKey"), !(Hsame "project"),
    !(Hsame "baseUrl") by discriminate.
  rewrite Hpair. reflexivity.
Qed.
End Priority.

(** The runs of [tests/client.test.ts], on the stand-in library. *)
Example pair_wins_over_bundled_key :
  trace_of
    (Client.initEarthEngine mock_ee
       {[ "email" := VStr "separate@example.iam.gserviceaccount.com";
          "privateKey" := VStr "SEPARATE KEY";
          "privateKeyJson" := VStr "service-account.json";
          "project" := VStr "test-project" ]} tt)
  = [EvCallback
       (Client.private_key_call
          {[ "client_email" := VStr "separate@example.iam.gserviceaccount.com";
             "private_key" := VStr "SEPARATE KEY";
             "project_id" := VStr "test-project" ]}) CbSuccess;
     EvCallback (Client.initialize_call VNull (VStr "test-project")) CbSuccess].
Proof. vm_compute. reflexivity. Qed.

Example bundled_key_text_is_parsed :
  trace_of
    (Client.initEarthEngine mock_ee
       {[ "privateKeyJson" := VStr "service-account.json";
          "tokenRetriever" := VFun 0 ]} tt)
  = [EvCallback
       (Client.private_key_call
          {[ "client_email" := VStr "json@example.iam.gserviceaccount.com";
             "private_key" := VStr "JSON KEY" ]}) CbSuccess;
     EvCallback (Client.initialize_call VNull VNull) CbSuccess].
Proof. vm_compute. reflexivity. Qed.

Example token_supplier_is_asked :
  Client.initEarthEngine mock_ee
    {[ "tokenRetriever" := VFun 0; "project" := VStr "test-project" ]} tt
  = (Ok ee, tt,
     [EvUser (VFun 0) [] (Fulfilled (VStr "mock-access-token"));
      EvCall (Client.set_token_call (VStr "mock-access-token"))
             (Returns (VHandle 7));
      EvCallback (Client.initialize_call VNull (VStr "test-project")) CbSuccess]).
Proof. reflexivity. Qed.

Example external_authentication :
  Client.initEarthEngine mock_ee ∅ tt
  = (Ok ee, tt, [EvCallback (Client.initialize_call VNull VNull) CbSuccess]).
Proof. reflexivity. Qed.

(** C1, as it is stated, fails: an e-mail address that is present but
    empty is passed over, and the bundled key is used instead. *)
Lemma present_empty_email_counterexample :
  ~ (forall (options : gmap string jsval) (email privateKey : jsval),
        options !! "email" = Some email ->
        options !! "privateKey" = Some privateKey ->
        email <> VUndefined -> privateKey <> VUndefined ->
        exists ev rest,
          trace_of (Client.initEarthEngine mock_ee options tt) = ev :: rest
          /\ authenticates_with email privateKey ev).
Proof.
  intros H.
  destruct (H {[ "email" := VStr "";
                 "privateKey" := VStr "SEPARATE KEY";
                 "privateKeyJson" :=
                   VObj {[ "email" := VStr "json@example.iam.gserviceaccount.com";
                           "privateKey" := VStr "JSON KEY" ]} ]}
              (VStr "") (VStr "SEPARATE KEY"))
    as (ev & rest & Htrace & credentials & r & -> & Hemail & _);
    [reflexivity | reflexivity | discriminate | discriminate |].
  vm_compute in Htrace. injection Htrace as <- _ _.
  vm_compute in Hemail. discriminate.
Qed.

(** C1, amended. [initEarthEngine] picks its credentials by truthiness, in
    this order.  If the e-mail address and the private key are both truthy,
    the first call authenticates with them and only [ee.initialize] may
    follow, whatever the bundled key and the token supplier are.  Otherwise,
    if the bundled key is truthy, it is parsed and the first call
    authenticates with what was read from it, or the parse error ends the
    run; the token supplier is not called.  Otherwise, if the token supplier
    is truthy, it is called first, its token is given to
    [ee.data.setAuthToken], and only [ee.initialize] may follow.  Otherwise
    the run is the initialization step alone. *)
Theorem credentials_are_chosen_by_priority
    {S : Type} (rt : runtime S) (options : gmap string jsval) (s : S) :
  let email := get options "email" in
  let privateKey := get options "privateKey" in
  let privateKeyJson := get options "privateKeyJson" in
  let tokenRetriever := get options "tokenRetriever" in
  let r := Client.initEarthEngine rt options s in
  if truthy email && truthy privateKey then
    (exists ev rest,
        trace_of r = ev :: rest
        /\ authenticates_with email privateKey ev
        /\ forallb (is_call_to "ee.initialize") rest = true)
    /\ (forall other,
          (forall k, k <> "privateKeyJson" -> k <> "tokenRetriever" ->
                     get other k = get options k) ->
          Client.initEarthEngine rt other s = r)
  else if truthy privateKeyJson then
    ((exists e,
         Client.parseServiceAccountKey rt privateKeyJson s = (Err e, s, [])
         /\ r = (Err e, s, []))
     \/ (exists key ev rest,
           Client.parseServiceAccountKey rt privateKeyJson s = (Ok key, s, [])
           /\ trace_of r = ev :: rest
           /\ authenticates_with (peek key "email") (peek key "privateKey") ev
           /\ forallb (is_call_to "ee.initialize") rest = true))
    /\ count is_user_call (trace_of r) = 0
    /\ count (is_call_to "ee.data.setAuthToken") (trace_of r) = 0
  else if truthy tokenRetriever then
    count (is_call_to "ee.data.authenticateViaPrivateKey") (trace_of r) = 0
    /\ match await_user rt tokenRetriever [] s with
       | (Ok token, _, supplied) =>
           exists reply rest,
             trace_of r
             = supplied ++ EvCall (Client.set_token_call token) reply :: rest
             /\ forallb (is_call_to "ee.initialize") rest = true
       | (Err e, s1, supplied) => r = (Err e, s1, supplied)
       | (Hang, s1, supplied) => r = (Hang, s1, supplied)
       end
  else
    r = (Client.initialize rt options;; ret ee) s.
Proof.
  cbv zeta.
  destruct (initEarthEngine_continues rt options s)
    as (rest & Htrace & Hrest & Herr & Hhang).
  destruct (truthy (get options "email") && truthy (get options "privateKey"))
    eqn:Hpair.
  { split; [|intros other Hsame; apply pair_ignores_the_rest; assumption].
    destruct (authenticate_pair rt options s Hpair) as (credentials & He & Hk & Hrun).
    rewrite Hrun in Htrace. revert Htrace.
    unfold Client.authenticateViaPrivateKey. run; intros ->;
      do 2 eexists; (split; [reflexivity|]);
      (split; [do 2 eexists; repeat split; eassumption | exact Hrest]). }
  destruct (truthy (get options "privateKeyJson")) eqn:Hjson.
  { destruct (authenticate_bundled rt options s Hpair Hjson)
      as [(e & Hparse & Hrun) | (key & credentials & Hparse & _ & _ & He & Hk & Hrun)].
    - rewrite Hrun in *. cbv [trace_of outcome_of snd fst] in *.
      destruct (Herr e eq_refl) as [-> Hout]. split.
      + left. exists e. split; [exact Hparse|].
        rewrite initEarthEngine_steps, Hrun. reflexivity.
      + rewrite Htrace. split; reflexivity.
    - rewrite Hrun in Htrace. revert Htrace.
      destruct (only_initialize rest Hrest) as [Hu1 Hu2].
      specialize (Hu2 "ee.data.setAuthToken" ltac:(discriminate)).
      unfold Client.authenticateViaPrivateKey. run; intros Htrace;
        (split;
         [ right; exists key; do 2 eexists; (split; [exact Hparse|]);
           (split; [exact Htrace|]);
           (split; [do 2 eexists; repeat split; eassumption | exact Hrest])
         | rewrite Htrace; simpl; split; assumption ]). }
  destruct (truthy (get options "tokenRetriever")) eqn:Htoken.
  { clear rest Htrace Hrest Herr Hhang.
    rewrite initEarthEngine_steps,
      (authenticate_supplier rt options s Hpair Hjson Htoken).
    destruct (get options "tokenRetriever") as [| | | | | | | | | id | |];
      try discriminate Htoken; unfold_run; try (split; reflexivity).
    destruct (user_call rt s id []) as [[token | e |] s1];
      try (split; reflexivity).
    destruct (ee_call rt s1 (Client.set_token_call token)) as [[v | e] s2].
    - pose proof (initialize_only_initializes rt options s2) as Hinit.
      destruct (only_initialize _ Hinit) as [_ Hnone].
      specialize (Hnone "ee.data.authenticateViaPrivateKey" ltac:(discriminate)).
      destruct (Client.initialize rt options s2) as [[[u' | e2 |] s3] l2];
        cbv [trace_of outcome_of snd fst] in *;
        (split; [exact Hnone | do 2 eexists; split; [reflexivity | exact Hinit]]).
    - split; [reflexivity|]. exists (Throws e), []. split; reflexivity. }
  apply initEarthEngine_without_credentials; assumption.
Qed.

(** ** The export helpers: the record handed to the library *)

Lemma lookup_set_if_truthy_eq k v (o : gmap string jsval) :
  set_if_truthy k v o !! k = if truthy v then Some v else o !! k.
Proof.
  unfold set_if_truthy, set. destruct (truthy v); [apply lookup_insert_eq | reflexivity].
Qed.

Lemma lookup_set_if_truthy_ne k k' v (o : gmap string jsval) :
  k <> k' -> set_if_truthy k v o !! k' = o !! k'.
Proof.
  intros Hne. unfold set_if_truthy, set.
  destruct (truthy v); [apply lookup_insert_ne; exact Hne | reflexivity].
Qed.

Lemma lookup_set_if_truthy_Some k k' v w (o : gmap string jsval) :
  set_if_truthy k v o !! k' = Some w -> k = k' \/ o !! k' = Some w.
Proof.
  destruct (decide (k = k')) as [-> | Hne]; [left; reflexivity|].
  rewrite lookup_set_if_truthy_ne by exact Hne. right. assumption.
Qed.

(** Looking a literal key up in a record built by an export helper. *)
Ltac lookup_record :=
  cbv zeta;
  repeat first
    [ rewrite lookup_set_if_truthy_eq
    | rewrite lookup_set_if_truthy_ne by discriminate
    | rewrite lookup_insert_eq
    | rewrite lookup_insert_ne by discriminate
    | rewrite lookup_singleton_eq
    | rewrite lookup_singleton_ne by discriminate
    | rewrite lookup_empty ].

(** The keys a record built by an export helper can hold. *)
Ltac record_keys H :=
  cbv zeta in H;
  repeat match type of H with
         | set_if_truthy _ _ _ !! _ = Some _ =>
             apply lookup_set_if_truthy_Some in H as [<- | H];
             [simpl; tauto|]
         | <[_ := _]> _ !! _ = Some _ =>
             apply lookup_insert_Some in H as [[<- _] | [_ H]];
             [simpl; tauto|]
         | {[_ := _]} !! _ = Some _ =>
             apply lookup_singleton_Some in H as [<- _]; simpl; tauto
         end.

Section ExportRecords.
Context {S : Type} (rt : runtime S).

(** A helper that ends in [ee.f({...})] makes that one call and passes
    on what it returns or throws. *)
Lemma static_record_run path (record : gmap string jsval) s :
  exists reply s1,
    ee_call rt s (Call path ee [VObj record]) = (reply, s1)
    /\ static rt path [VObj record] s
       = (match reply with Returns v => Ok v | Throws e => Err e end, s1,
          [EvCall (Call path ee [VObj record]) reply]).
Proof.
  unfold static, invoke.
  destruct (ee_call rt s (Call path ee [VObj record])) as [[v | e] s1];
    do 2 eexists; split; reflexivity.
Qed.

Lemma static_hands_over path (built record : gmap string jsval) s :
  hands_over (trace_of (static rt path [VObj built] s)) record <-> record = built.
Proof.
  destruct (static_record_run path built s) as (reply & s1 & _ & ->).
  cbv [trace_of snd hands_over]. split.
  - intros (c & r & [= <- <-] & [= <-]). reflexivity.
  - intros ->. do 2 eexists. split; reflexivity.
Qed.

Lemma imageToDrive_lookup image options k :
  In k ["folder"; "scale"; "crs"; "maxPixels"; "region"; "formatOptions"] ->
  Exports.imageToDrive_options image options !! k
  = if truthy (get options k) then Some (get options k) else None.
Proof.
  unfold Exports.imageToDrive_options. simpl In. intros H.
  case_events; subst; lookup_record; reflexivity.
Qed.

Lemma imageToCloudStorage_lookup image options k :
  In k ["fileNamePrefix"; "scale"; "crs"; "maxPixels"; "region"; "formatOptions"] ->
  Exports.imageToCloudStorage_options image options !! k
  = if truthy (get options k) then Some (get options k) else None.
Proof.
  unfold Exports.imageToCloudStorage_options. simpl In. intros H.
  case_events; subst; lookup_record; reflexivity.
Qed.

Lemma tableToDrive_lookup collection options k :
  In k ["folder"; "selectors"] ->
  Exports.tableToDrive_options collection options !! k
  = if truthy (get options k) then Some (get options k) else None.
Proof.
  unfold Exports.tableToDrive_options. simpl In. intros H.
  case_events; subst; lookup_record; reflexivity.
Qed.

Lemma tableToCloudStorage_lookup collection options k :
  In k ["fileNamePrefix"; "selectors"] ->
  Exports.tableToCloudStorage_options collection options !! k
  = if truthy (get options k) then Some (get options k) else None.
Proof.
  unfold Exports.tableToCloudStorage_options. simpl In. intros H.
  case_events; subst; lookup_record; reflexivity.
Qed.

Lemma imageToAsset_lookup image description assetId options k :
  In k ["scale"; "crs"; "maxPixels"; "region"] ->
  Exports.imageToAsset_options image description assetId options !! k
  = if truthy (get options k) then Some (get options k) else None.
Proof.
  unfold Exports.imageToAsset_options. simpl In. intros H.
  case_events; subst; lookup_record; reflexivity.
Qed.
End ExportRecords.

(** C6, as it is stated, fails: a scale of 0 is supplied and is not in the
    record that [exportImageToDrive] hands to the library. *)
Lemma supplied_zero_scale_counterexample :
  ~ (forall (image : jsval) (options : gmap string jsval) (k : string) (v : jsval),
        In k ["folder"; "scale"; "crs"; "maxPixels"; "region"; "formatOptions"] ->
        options !! k = Some v -> v <> VUndefined ->
        exists record,
          hands_over (trace_of (Exports.exportImageToDrive mock_ee image options tt))
                     record
          /\ record !! k = Some v).
Proof.
  intros H.
  destruct (H (VHandle 5) {[ "description" := VStr "my_export"; "scale" := VNum 0 ]}
              "scale" (VNum 0))
    as (record & Hover & Hscale);
    [simpl; tauto | reflexivity | discriminate |].
  apply static_hands_over in Hover. subst record.
  vm_compute in Hscale. discriminate.
Qed.

(** C6, amended. [exportImageToDrive] and [exportImageToCloudStorage] make
    one call of the library's export function, with one flat record as its
    only argument, and pass back what that call returns.  The record always
    holds the image, the description (and the bucket) and a file format,
    which is 'GeoTIFF' when the options give none; it holds each optional
    field whose value is truthy, under the same key and with the same value,
    and holds no optional field whose value is falsy; it holds nothing
    else. *)
Theorem export_record_holds_the_truthy_options
    {S : Type} (rt : runtime S) (image : jsval) (options : gmap string jsval)
    (s : S) :
  let drive := Exports.imageToDrive_options image options in
  let cloud := Exports.imageToCloudStorage_options image options in
  let fileFormat :=
    match get options "fileFormat" with
    | VUndefined => VStr "GeoTIFF"
    | given => given
    end in
  ((exists reply s1,
       ee_call rt s (Call "ee.batch.Export.image.toDrive" ee [VObj drive])
       = (reply, s1)
       /\ Exports.exportImageToDrive rt image options s
          = (match reply with Returns v => Ok v | Throws e => Err e end, s1,
             [EvCall (Call "ee.batch.Export.image.toDrive" ee [VObj drive]) reply]))
   /\ drive !! "image" = Some image
   /\ drive !! "description" = Some (get options "description")
   /\ drive !! "fileFormat" = Some fileFormat
   /\ (forall k,
         In k ["folder"; "scale"; "crs"; "maxPixels"; "region"; "formatOptions"] ->
         drive !! k = if truthy (get options k) then Some (get options k) else None)
   /\ (forall k v,
         drive !! k = Some v ->
         In k ["image"; "description"; "fileFormat"; "folder"; "scale"; "crs";
               "maxPixels"; "region"; "formatOptions"]))
  /\ ((exists reply s1,
          ee_call rt s (Call "ee.batch.Export.image.toCloudStorage" ee [VObj cloud])
          = (reply, s1)
          /\ Exports.exportImageToCloudStorage rt image options s
             = (match reply with Returns v => Ok v | Throws e => Err e end, s1,
                [EvCall (Call "ee.batch.Export.image.toCloudStorage" ee [VObj cloud])
                        reply]))
      /\ cloud !! "image" = Some image
      /\ cloud !! "description" = Some (get options "description")
      /\ cloud !! "bucket" = Some (get options "bucket")
      /\ cloud !! "fileFormat" = Some fileFormat
      /\ (forall k,
            In k ["fileNamePrefix"; "scale"; "crs"; "maxPixels"; "region";
                  "formatOptions"] ->
            cloud !! k = if truthy (get options k) then Some (get options k) else None)
      /\ (forall k v,
            cloud !! k = Some v ->
            In k ["image"; "description"; "bucket"; "fileFormat"; "fileNamePrefix";
                  "scale"; "crs"; "maxPixels"; "region"; "formatOptions"])).
Proof.
  cbv zeta. split.
  - split; [apply static_record_run|].
    split; [unfold Exports.imageToDrive_options; lookup_record; reflexivity|].
    split; [unfold Exports.imageToDrive_options; lookup_record; reflexivity|].
    split; [unfold Exports.imageToDrive_options; lookup_record; reflexivity|].
    split; [apply imageToDrive_lookup|].
    intros k v H. unfold Exports.imageToDrive_options in H. record_keys H.
  - split; [apply static_record_run|].
    split; [unfold Exports.imageToCloudStorage_options; lookup_record; reflexivity|].
    split; [unfold Exports.imageToCloudStorage_options; lookup_record; reflexivity|].
    split; [unfold Exports.imageToCloudStorage_options; lookup_record; reflexivity|].
    split; [unfold Exports.imageToCloudStorage_options; lookup_record; reflexivity|].
    split; [apply imageToCloudStorage_lookup|].
    intros k v H. unfold Exports.imageToCloudStorage_options in H. record_keys H.
Qed.

(** C8. In every export helper that takes an options record, an optional
    field whose value is falsy (a scale or a pixel limit of 0, an empty
    folder name) is left out of the record handed to the library's export
    call.  The optional fields are those the helper copies under a test of
    their truthiness; the file format is not one of them, it has a
    default. *)
Theorem falsy_optional_field_is_omitted
    {S : Type} (rt : runtime S) (subject description assetId : jsval)
    (options : gmap string jsval) (s : S) (k : string)
    (record : gmap string jsval) :
  truthy (get options k) = false ->
  (In k ["folder"; "scale"; "crs"; "maxPixels"; "region"; "formatOptions"] ->
   hands_over (trace_of (Exports.exportImageToDrive rt subject options s)) record ->
   record !! k = None)
  /\ (In k ["fileNamePrefix"; "scale"; "crs"; "maxPixels"; "region";
            "formatOptions"] ->
      hands_over (trace_of (Exports.exportImageToCloudStorage rt subject options s))
                 record ->
      record !! k = None)
  /\ (In k ["folder"; "selectors"] ->
      hands_over (trace_of (Exports.exportTableToDrive rt subject options s)) record ->
      record !! k = None)
  /\ (In k ["fileNamePrefix"; "selectors"] ->
      hands_over (trace_of (Exports.exportTableToCloudStorage rt subject options s))
                 record ->
      record !! k = None)
  /\ (In k ["scale"; "crs"; "maxPixels"; "region"] ->
      hands_over
        (trace_of (Exports.exportImageToAsset rt subject description assetId
                     options s)) record ->
      record !! k = None).
Proof.
  intros Hfalsy. repeat split; intros Hk Hover;
    apply static_hands_over in Hover; subst record.
  - rewrite imageToDrive_lookup, Hfalsy by exact Hk. reflexivity.
  - rewrite imageToCloudStorage_lookup, Hfalsy by exact Hk. reflexivity.
  - rewrite tableToDrive_lookup, Hfalsy by exact Hk. reflexivity.
  - rewrite tableToCloudStorage_lookup, Hfalsy by exact Hk. reflexivity.
  - rewrite imageToAsset_lookup, Hfalsy by exact Hk. reflexivity.
Qed.

Lemma falsy_optional_field_is_omitted_witness :
  Exports.imageToDrive_options (VHandle 5)
    {[ "description" := VStr "my_export"; "scale" := VNum 0;
       "folder" := VStr "" ]} !! "scale" = None.
Proof.
  refine (proj1 (falsy_optional_field_is_omitted mock_ee (VHandle 5) VUndefined
                   VUndefined
                   {[ "description" := VStr "my_export"; "scale" := VNum 0;
                      "folder" := VStr "" ]} tt "scale" _ _) _ _).
  - reflexivity.
  - right. left. reflexivity.
  - do 2 eexists. split; reflexivity.
Defined.


(** ** The helpers: the calls they correspond to *)








Section ExportRecordsAsSpecified.






End ExportRecordsAsSpecified.

Section Following.
Context {S : Type} (rt : runtime S).







End Following.

Ltac unfold_helpers :=
  cbv [run_helper corresponding_call unless_undefined if_truthy or_default
       Geometry.createPoint Geometry.createPointFromCoords Geometry.createRectangle
       Geometry.createPolygon Geometry.createLineString Geometry.createMultiPoint
       Geometry.bufferGeometry Geometry.centroid Geometry.bounds Geometry.area
       Geometry.union Geometry.intersection Geometry.difference
       Geometry.with_maxError Geometry.createFeature
       Geometry.createFeatureCollection
       Images.loadImageCollection Images.loadImage Images.mapCollection
       Images.compositeCollection Images.filterByCloudCover Images.selectBands
       Images.calculateNDVI Images.clipImage
       Images.getCollectionSize Images.collectionToList
       Exports.exportImageToDrive Exports.exportImageToCloudStorage
       Exports.exportTableToDrive Exports.exportTableToCloudStorage
       Exports.exportImageToAsset Exports.exportTableToAsset].





(** * Further properties of the client module *)

Section ClientCredentials.
Context {S : Type} (rt : runtime S).



(** The call the explicit pair leads to, with its credentials in full. *)
Lemma authenticate_pair_exact options s :
  truthy (get options "email") && truthy (get options "privateKey") = true ->
  Client.authenticate rt options s
  = Client.authenticateViaPrivateKey rt
      (match Client.usable_project (get options "project") with
       | Some p =>
           set "project_id" (VStr (trim p))
               (base_credentials (get options "email") (get options "privateKey"))
       | None => base_credentials (get options "email") (get options "privateKey")
       end) s.
Proof.
  intros Hpair. unfold Client.authenticate. rewrite Hpair.
  destruct (Client.usable_project (get options "project")); reflexivity.
Qed.



End ClientCredentials.




Section ClientEndings.
Context {S : Type} (rt : runtime S).

(** What [initEarthEngine] gives [ee.initialize] for the project. *)
Lemma project_value_exact project (s : S) :
  (truthy project = true /\ typeof project <> "string"
   /\ Client.project_value project s
      = (Err (VError ("Project must be a string, got " +:+ typeof project)), s, []))
  \/ Client.project_value project s
     = (Ok (match project with
            | VStr p => if String.eqb (trim p) "" then VNull else VStr (trim p)
            | _ => VNull
            end), s, []).
Proof.
  unfold Client.project_value.
  destruct (truthy project) eqn:Htruthy.
  - destruct project as [| | | | | p | | | | | |];
      try (left; split; [reflexivity|]; split; [discriminate | reflexivity]).
    right. rewrite trimmed_or_null. reflexivity.
  - right. destruct project as [| | | | | p | | | | | |]; try reflexivity.
    simpl in Htruthy. destruct p; [reflexivity | discriminate].
Qed.

(** What it gives for the base URL: the text the option converts to,
    trimmed, unless the conversion throws. *)
Lemma base_url_value_exact baseUrl s :
  Client.base_url_value rt baseUrl s
  = if truthy baseUrl
    then match js_String rt baseUrl s with
         | (Ok text, s1, _) => (Ok (VStr (trim text)), s1, [])
         | (Err e, s1, _) => (Err e, s1, [])
         | (Hang, s1, _) => (Hang, s1, [])
         end
    else (Ok VNull, s, []).
Proof.
  unfold Client.base_url_value. destruct (truthy baseUrl); [|reflexivity].
  destruct baseUrl; run; reflexivity.
Qed.

(** The initialization step in full: the type check stops it, or the
    conversion of the base URL does, or [ee.initialize] is called with
    these two values. *)
Lemma initialize_exact options s :
  let project := get options "project" in
  let baseUrl := get options "baseUrl" in
  let projectValue :=
    match project with
    | VStr p => if String.eqb (trim p) "" then VNull else VStr (trim p)
    | _ => VNull
    end in
  (truthy project = true
   /\ typeof project <> "string"
   /\ Client.initialize rt options s
      = (Err (VError ("Project must be a string, got " +:+ typeof project)), s, []))
  \/ (exists e s1,
        truthy baseUrl = true
        /\ js_String rt baseUrl s = (Err e, s1, [])
        /\ Client.initialize rt options s = (Err e, s1, []))
  \/ (exists text s1,
        truthy baseUrl = true
        /\ js_String rt baseUrl s = (Ok text, s1, [])
        /\ Client.initialize rt options s
           = Client.ee_initialize rt (VStr (trim text)) projectValue s1)
  \/ (truthy baseUrl = false
      /\ Client.initialize rt options s
         = Client.ee_initialize rt VNull projectValue s).
Proof.
  cbv zeta. unfold Client.initialize. unfold mbind, M_bind.
  destruct (project_value_exact (get options "project") s)
    as [(Ht & Hs & Hp) | Hp].
  { left. split; [exact Ht|]. split; [exact Hs|]. apply bind_err. exact Hp. }
  right. rewrite (bind_pure_ok _ _ _ _ Hp).
  unfold bind. rewrite base_url_value_exact.
  destruct (truthy (get options "baseUrl")) eqn:Hb.
  - destruct (get options "baseUrl"); run;
      first [ left; do 2 eexists; split; [reflexivity|]; split; reflexivity
            | right; left; do 2 eexists; split; [reflexivity|]; split;
              [reflexivity|];
              match goal with
              | |- context [Client.ee_initialize ?r ?b ?p ?s1] =>
                  destruct (Client.ee_initialize r b p s1) as [[o s2] l]
              end; reflexivity ].
  - right. right. split; [reflexivity|].
    match goal with
    | |- context [Client.ee_initialize ?r ?b ?p ?s1] =>
        destruct (Client.ee_initialize r b p s1) as [[o s2] l]
    end. reflexivity.
Qed.

(** How the authentication step can end. *)
Lemma authenticate_endings options s :
  match Client.authenticate rt options s with
  | (Ok _, _, l) => forallb succeeded l = true
  | (Err e, _, l) =>
      (l = [] /\ e = VError "Failed to parse service account JSON key")
      \/ (l = [] /\ truthy (get options "tokenRetriever") = true
          /\ forall id, get options "tokenRetriever" <> VFun id)
      \/ (exists ev, last l = Some ev /\ error_of ev = Some e)
  | (Hang, _, l) => exists ev, last l = Some ev /\ never_settles ev = true
  end.
Proof.
  destruct (truthy (get options "email") && truthy (get options "privateKey"))
    eqn:Hpair.
  { rewrite (authenticate_pair_exact rt options s Hpair).
    unfold Client.authenticateViaPrivateKey. run;
      first [ reflexivity
            | right; right; eexists; split; reflexivity
            | eexists; split; reflexivity ]. }
  destruct (truthy (get options "privateKeyJson")) eqn:Hjson.
  { destruct (authenticate_bundled rt options s Hpair Hjson)
      as [(e & Hparse & ->) | (key & c & _ & _ & _ & _ & _ & ->)].
    - left. split; [reflexivity|]. exact (parse_error_is_fixed rt _ _ _ _ _ Hparse).
    - unfold Client.authenticateViaPrivateKey. run;
        first [ reflexivity
              | right; right; eexists; split; reflexivity
              | eexists; split; reflexivity ]. }
  destruct (truthy (get options "tokenRetriever")) eqn:Htoken.
  { rewrite (authenticate_supplier rt options s Hpair Hjson Htoken).
    destruct (get options "tokenRetriever") eqn:Hf; try discriminate Htoken; run;
      first [ reflexivity
            | right; left; split; [reflexivity|]; split; [first [reflexivity | exact Htoken] | intros ?; discriminate]
            | right; right; eexists; split; reflexivity
            | eexists; split; reflexivity ]. }
  rewrite (authenticate_none rt options s Hpair Hjson Htoken). reflexivity.
Qed.

(** How a run of [initEarthEngine] can end. *)
Lemma initEarthEngine_endings options s :
  let r := Client.initEarthEngine rt options s in
  match outcome_of r with
  | Ok v =>
      v = ee
      /\ forallb succeeded (trace_of r) = true
      /\ exists baseUrlValue projectValue,
           last (trace_of r)
           = Some (EvCallback (Client.initialize_call baseUrlValue projectValue)
                              CbSuccess)
  | Err e =>
      (trace_of r = [] /\ e = VError "Failed to parse service account JSON key")
      \/ (trace_of r = [] /\ truthy (get options "tokenRetriever") = true
          /\ forall id, get options "tokenRetriever" <> VFun id)
      \/ (truthy (get options "project") = true
          /\ typeof (get options "project") <> "string"
          /\ e = VError ("Project must be a string, got "
                         +:+ typeof (get options "project"))
          /\ forallb succeeded (trace_of r) = true)
      \/ (truthy (get options "baseUrl") = true
          /\ outcome_of (js_String rt (get options "baseUrl")
                           (state_of (Client.authenticate rt options s))) = Err e
          /\ forallb succeeded (trace_of r) = true
          /\ count (is_call_to "ee.initialize") (trace_of r) = 0)
      \/ (exists ev, last (trace_of r) = Some ev /\ error_of ev = Some e)
  | Hang => exists ev, last (trace_of r) = Some ev /\ never_settles ev = true
  end.
Proof.
  cbv zeta. rewrite initEarthEngine_steps.
  pose proof (authenticate_endings options s) as Hauth.
  pose proof (authenticate_facts rt options s) as (Ha0 & _). cbv zeta in Ha0.
  destruct (Client.authenticate rt options s) as [[[[] | e1 |] s1] l1];
    cbv [outcome_of trace_of state_of fst snd] in Ha0 |- *;
    [|tauto|exact Hauth].
  assert (Hcall : forall b p s',
             match Client.ee_initialize rt b p s' with
             | (Ok _, _, l2) =>
                 forallb succeeded (l1 ++ l2) = true
                 /\ exists baseUrlValue projectValue,
                      last (l1 ++ l2)
                      = Some (EvCallback
                                (Client.initialize_call baseUrlValue projectValue)
                                CbSuccess)
             | (Err e, _, l2) =>
                 exists ev, last (l1 ++ l2) = Some ev /\ error_of ev = Some e
             | (Hang, _, l2) =>
                 exists ev, last (l1 ++ l2) = Some ev /\ never_settles ev = true
             end).
  { intros b p s'. unfold Client.ee_initialize, await_callback.
    destruct (ee_callback rt s' _) as [[| e | e |] s2]; rewrite ?last_snoc.
    - split; [rewrite forallb_app, Hauth; reflexivity | do 2 eexists; reflexivity].
    - eexists. split; reflexivity.
    - eexists. split; reflexivity.
    - eexists. split; reflexivity. }
  destruct (initialize_exact options s1)
    as [(Ht & Hs & ->) | [(e & s2 & Hb & Hconv & ->)
                         | [(text & s2 & Hb & Hconv & ->) | (Hb & ->)]]].
  - rewrite app_nil_r. right. right. left. repeat split; assumption.
  - rewrite app_nil_r. do 3 right. left. rewrite Hconv.
    repeat split; assumption.
  - match goal with
    | |- context [Client.ee_initialize rt ?b ?p ?s'] =>
        specialize (Hcall b p s');
        destruct (Client.ee_initialize rt b p s') as [[[u | e |] s3] l2]
    end.
    + split; [reflexivity | exact Hcall].
    + do 4 right. exact Hcall.
    + exact Hcall.
  - match goal with
    | |- context [Client.ee_initialize rt ?b ?p ?s'] =>
        specialize (Hcall b p s');
        destruct (Client.ee_initialize rt b p s') as [[[u | e |] s3] l2]
    end.
    + split; [reflexivity | exact Hcall].
    + do 4 right. exact Hcall.
    + exact Hcall.
Qed.
End ClientEndings.

(** X2. When the promise of [initEarthEngine] is fulfilled, its value is
    the module object [ee], every call of the run went through, and the
    last of them is [ee.initialize] invoking its success callback.  When
    the promise never settles, the last call of the run is one that never
    called back. *)
Theorem initEarthEngine_fulfilment
    {S : Type} (rt : runtime S) (options : gmap string jsval) (s : S) :
  let r := Client.initEarthEngine rt options s in
  (forall v,
      outcome_of r = Ok v ->
      v = ee
      /\ forallb succeeded (trace_of r) = true
      /\ exists baseUrlValue projectValue,
           last (trace_of r)
           = Some (EvCallback (Client.initialize_call baseUrlValue projectValue)
                              CbSuccess))
  /\ (outcome_of r = Hang ->
      exists ev, last (trace_of r) = Some ev /\ never_settles ev = true).
Proof.
  cbv zeta. pose proof (initEarthEngine_endings rt options s) as H.
  cbv zeta in H.
  destruct (outcome_of (Client.initEarthEngine rt options s)) as [v' | e |];
    split; try discriminate.
  - intros v [= <-]. exact H.
  - intros _. exact H.
Qed.

Lemma initEarthEngine_fulfilment_witness :
  VHandle 0 = ee
  /\ forallb succeeded
       (trace_of (Client.initEarthEngine mock_ee
                    {[ "tokenRetriever" := VFun 0 ]} tt)) = true
  /\ exists baseUrlValue projectValue,
       last (trace_of (Client.initEarthEngine mock_ee
                         {[ "tokenRetriever" := VFun 0 ]} tt))
       = Some (EvCallback (Client.initialize_call baseUrlValue projectValue)
                          CbSuccess).
Proof.
  refine (proj1 (initEarthEngine_fulfilment mock_ee
                   {[ "tokenRetriever" := VFun 0 ]} tt) (VHandle 0) _).
  reflexivity.
Defined.

(** X3. The ways the promise of [initEarthEngine] is rejected.  The error
    is the fixed one for a key that cannot be parsed, and then no call was
    made; or the token supplier is not a function that can be called, and
    then no call was made; or it is the type-check error for a truthy
    project that is not a string, and then every call made went through; or
    it is what [String(baseUrl)] threw for a truthy base URL, after the
    authentication went through and without a call of [ee.initialize]; or
    it is the error the last call of the run ended with. *)
Theorem initEarthEngine_rejections
    {S : Type} (rt : runtime S) (options : gmap string jsval) (s : S)
    (e : jsval) :
  let r := Client.initEarthEngine rt options s in
  outcome_of r = Err e ->
  (trace_of r = [] /\ e = VError "Failed to parse service account JSON key")
  \/ (trace_of r = [] /\ truthy (get options "tokenRetriever") = true
      /\ forall id, get options "tokenRetriever" <> VFun id)
  \/ (truthy (get options "project") = true
      /\ typeof (get options "project") <> "string"
      /\ e = VError ("Project must be a string, got "
                     +:+ typeof (get options "project"))
      /\ forallb succeeded (trace_of r) = true)
  \/ (truthy (get options "baseUrl") = true
      /\ outcome_of (js_String rt (get options "baseUrl")
                       (state_of (Client.authenticate rt options s))) = Err e
      /\ forallb succeeded (trace_of r) = true
      /\ count (is_call_to "ee.initialize") (trace_of r) = 0)
  \/ (exists ev, last (trace_of r) = Some ev /\ error_of ev = Some e).
Proof.
  cbv zeta. pose proof (initEarthEngine_endings rt options s) as H.
  cbv zeta in H.
  destruct (outcome_of (Client.initEarthEngine rt options s)) as [v' | e' |];
    try discriminate.
  intros [= <-]. exact H.
Qed.

Lemma initEarthEngine_rejections_witness :
  truthy (VObj ∅) = true
  /\ outcome_of (js_String mock_mapping (VObj ∅) tt)
     = Err (VError "TypeError: cannot convert")
  /\ forallb succeeded
       (trace_of (Client.initEarthEngine mock_mapping
                    {[ "tokenRetriever" := VFun 0; "baseUrl" := VObj ∅ ]} tt))
     = true
  /\ count (is_call_to "ee.initialize")
           (trace_of (Client.initEarthEngine mock_mapping
                        {[ "tokenRetriever" := VFun 0; "baseUrl" := VObj ∅ ]} tt))
     = 0.
Proof.
  destruct (initEarthEngine_rejections mock_mapping
              {[ "tokenRetriever" := VFun 0; "baseUrl" := VObj ∅ ]} tt
              (VError "TypeError: cannot convert"))
    as [[H _] | [[H _] | [(H & _) | [H | (ev & H & He)]]]].
  - reflexivity.
  - discriminate H.
  - discriminate H.
  - discriminate H.
  - exact H.
  - vm_compute in H. injection H as <-. discriminate He.
Defined.

(** X4. What [ee.initialize] is given by [initEarthEngine]: for the base
    URL [null] when the option is falsy, and otherwise the text that
    [String(baseUrl)] gave after the authentication, trimmed; [null] for
    the tile URL and the XSRF token; and for the project the trimmed text of
    the option, or [null] when the option is not a text or nothing is left
    of it. *)
Theorem initialize_arguments
    {S : Type} (rt : runtime S) (options : gmap string jsval) (s : S)
    (ev : event) :
  In ev (trace_of (Client.initEarthEngine rt options s)) ->
  is_call_to "ee.initialize" ev = true ->
  exists reply baseUrlValue,
    ev = EvCallback
           (Call "ee.initialize" ee
                 [ baseUrlValue; VNull; on_success; on_failure; VNull;
                   match get options "project" with
                   | VStr p =>
                       if String.eqb (trim p) "" then VNull else VStr (trim p)
                   | _ => VNull
                   end ]) reply
    /\ if truthy (get options "baseUrl")
       then exists text,
              outcome_of (js_String rt (get options "baseUrl")
                            (state_of (Client.authenticate rt options s)))
              = Ok text
              /\ baseUrlValue = VStr (trim text)
       else baseUrlValue = VNull.
Proof.
  rewrite initEarthEngine_steps.
  pose proof (authenticate_facts rt options s) as (Ha0 & _). cbv zeta in Ha0.
  destruct (Client.authenticate rt options s) as [[[[] | e1 |] s1] l1];
    cbv [trace_of outcome_of state_of snd fst] in Ha0 |- *;
    try (intros Hin Hev; rewrite (count_zero_not_in _ _ _ Ha0 Hin) in Hev;
         discriminate).
  assert (Hinit : forall ev',
             In ev' (Client.initialize rt options s1).2 ->
             exists reply baseUrlValue,
               ev' = EvCallback
                       (Call "ee.initialize" ee
                          [ baseUrlValue; VNull; on_success; on_failure; VNull;
                            match get options "project" with
                            | VStr p =>
                                if String.eqb (trim p) "" then VNull
                                else VStr (trim p)
                            | _ => VNull
                            end ]) reply
               /\ if truthy (get options "baseUrl")
                  then exists text,
                         (js_String rt (get options "baseUrl") s1).1.1 = Ok text
                         /\ baseUrlValue = VStr (trim text)
                  else baseUrlValue = VNull).
  { intros ev'.
    destruct (initialize_exact rt options s1)
      as [(_ & _ & ->) | [(e & s2 & _ & _ & ->)
                         | [(text & s2 & Hb & Hconv & ->) | (Hb & ->)]]].
    - intros [].
    - intros [].
    - rewrite Hb, Hconv.
      unfold Client.ee_initialize, Client.initialize_call. run; cbv [In];
        intros [<- | []]; do 2 eexists; (split; [reflexivity|]);
        eexists; split; reflexivity.
    - rewrite Hb.
      unfold Client.ee_initialize, Client.initialize_call. run; cbv [In];
        intros [<- | []]; do 2 eexists; split; reflexivity. }
  destruct (Client.initialize rt options s1) as [[[u' | e2 |] s2] l2];
    cbv [trace_of outcome_of snd fst] in Hinit |- *;
    (intros [Hin | Hin]%in_app_or Hev;
     [ rewrite (count_zero_not_in _ _ _ Ha0 Hin) in Hev; discriminate
     | exact (Hinit ev Hin) ]).
Qed.

Lemma initialize_arguments_witness :
  exists reply baseUrlValue,
    EvCallback (Client.initialize_call (VStr "https://example.test") VNull) CbSuccess
    = EvCallback
        (Call "ee.initialize" ee
              [ baseUrlValue; VNull; on_success; on_failure; VNull; VNull ]) reply
    /\ exists text,
         outcome_of (js_String mock_ee (VStr "  https://example.test ") tt) = Ok text
         /\ baseUrlValue = VStr (trim text).
Proof.
  refine (initialize_arguments mock_ee
            {[ "baseUrl" := VStr "  https://example.test ";
               "project" := VStr "   " ]} tt
            (EvCallback (Client.initialize_call (VStr "https://example.test") VNull)
                        CbSuccess) _ _).
  - left. reflexivity.
  - reflexivity.
Defined.


(** X5. [initWithOAuth] calls [ee.data.authenticateViaOauth] first and
    once, with the client id as given and with the scopes of the options,
    or the default Earth Engine scope when the options give none.  At most
    one call follows, of [ee.initialize], and only when the OAuth call
    invoked its success callback.  The promise is fulfilled with the module
    object [ee] after both calls went through, and every rejection is the
    error one of the two calls ended with: there is no check of the project
    and no other source of errors. *)
Theorem oauth_then_initialize
    {S : Type} (rt : runtime S) (options : gmap string jsval) (s : S) :
  let r := Client.initWithOAuth rt options s in
  let scopes :=
    match get options "scopes" with
    | VUndefined => Client.DEFAULT_SCOPES
    | given => given
    end in
  (exists reply rest,
      trace_of r = EvCallback (oauth_call (get options "clientId") scopes) reply :: rest
      /\ forallb (is_call_to "ee.initialize") rest = true
      /\ length rest <= 1
      /\ (rest <> [] -> reply = CbSuccess))
  /\ (forall v, outcome_of r = Ok v ->
                v = ee /\ forallb succeeded (trace_of r) = true
                /\ length (trace_of r) = 2)
  /\ (forall e, outcome_of r = Err e ->
                exists ev, last (trace_of r) = Some ev /\ error_of ev = Some e).
Proof.
  cbv zeta. unfold Client.initWithOAuth, Client.ee_initialize, oauth_call.
  change (get_default options "scopes" Client.DEFAULT_SCOPES)
    with (match get options "scopes" with
          | VUndefined => Client.DEFAULT_SCOPES
          | given => given
          end).
  run; (split; [do 2 eexists; split; [reflexivity|]; repeat split;
                first [reflexivity | simpl; lia | intros H; congruence]
               |]);
    (split; [intros v Hv; first [discriminate Hv
                                | injection Hv as <-; repeat split; reflexivity]
            |]);
    intros e' He; first [discriminate He
                        | injection He as <-; eexists; split; reflexivity].
Qed.

(** X6. What [ee.initialize] is given by [initWithOAuth]: [null] for the
    base URL, the tile URL and the XSRF token, whatever the options hold;
    and for the project the trimmed text of the option when that is a text
    and not empty, [null] otherwise.  A project that is not a text is
    passed over without an error, and a text of white space only is
    trimmed to the empty text and passed as such, not as [null] (the
    behaviour C9 is about). *)
Theorem oauth_initialize_arguments
    {S : Type} (rt : runtime S) (options : gmap string jsval) (s : S)
    (ev : event) :
  In ev (trace_of (Client.initWithOAuth rt options s)) ->
  is_call_to "ee.initialize" ev = true ->
  exists reply,
    ev = EvCallback
           (Call "ee.initialize" ee
                 [ VNull; VNull; on_success; on_failure; VNull;
                   match get options "project" with
                   | VStr p => if String.eqb p "" then VNull else VStr (trim p)
                   | _ => VNull
                   end ]) reply.
Proof.
  unfold Client.initWithOAuth, Client.ee_initialize, Client.initialize_call.
  assert (Hp : match Client.usable_project (get options "project") with
               | Some p => VStr (trim p)
               | None => VNull
               end
               = match get options "project" with
                 | VStr p => if String.eqb p "" then VNull else VStr (trim p)
                 | _ => VNull
                 end).
  { destruct (get options "project") as [| | | | | p | | | | | |];
      try reflexivity.
    simpl. destruct (String.eqb p ""); reflexivity. }
  rewrite Hp. clear Hp.
  run; read_trace; intros; case_events; subst; try discriminate;
    eexists; reflexivity.
Qed.

Lemma oauth_initialize_arguments_witness :
  exists reply,
    EvCallback (Client.initialize_call VNull VNull) CbSuccess
    = EvCallback
        (Call "ee.initialize" ee
              [ VNull; VNull; on_success; on_failure; VNull; VNull ]) reply.
Proof.
  refine (oauth_initialize_arguments mock_ee
            {[ "clientId" := VStr "client-id"; "project" := VNum 42;
               "baseUrl" := VStr "https://example.test" ]} tt
            (EvCallback (Client.initialize_call VNull VNull) CbSuccess) _ _).
  - right. left. reflexivity.
  - reflexivity.
Defined.


(** X7. [parseServiceAccountKey] makes no call and leaves the library as
    it is.  A key that is not a text comes back unchanged.  A text that
    [JSON.parse] rejects, and equally a text that parses to [null], gives
    the fixed error; a text that parses to an object gives its
    [client_email], [private_key] and [project_id], each [undefined] when
    the object lacks it; a text that parses to anything else is accepted
    and gives three [undefined] fields. *)
Theorem parseServiceAccountKey_cases
    {S : Type} (rt : runtime S) (keyInput : jsval) (s : S) :
  Client.parseServiceAccountKey rt keyInput s
  = match keyInput with
    | VStr text =>
        match JSON_parse rt text with
        | None | Some VNull | Some VUndefined =>
            (Err (VError "Failed to parse service account JSON key"), s, [])
        | Some (VObj fields) =>
            (Ok (VObj {[ "email" := get fields "client_email";
                         "privateKey" := get fields "private_key";
                         "projectId" := get fields "project_id" ]}), s, [])
        | Some _ =>
            (Ok (VObj {[ "email" := VUndefined;
                         "privateKey" := VUndefined;
                         "projectId" := VUndefined ]}), s, [])
        end
    | _ => (Ok keyInput, s, [])
    end.
Proof.
  destruct keyInput; try reflexivity.
  cbv [Client.parseServiceAccountKey]. unfold_run.
  destruct (JSON_parse rt s0) as [parsed|]; [destruct parsed|]; reflexivity.
Qed.

(** * Further properties of the helpers *)

(** X8. [createRectangle] always passes an array of exactly four corners:
    the first four elements of the bounds, with [undefined] standing in for
    each one the bounds lack; anything after the fourth is dropped. *)
Theorem createRectangle_passes_four_corners
    {S : Type} (rt : runtime S) (bounds : list jsval) (s : S) :
  Geometry.createRectangle rt bounds s
  = static rt "ee.Geometry.Rectangle"
      [VArr (take 4 (bounds ++ replicate 4 VUndefined))] s
  /\ length (take 4 (bounds ++ replicate 4 VUndefined)) = 4.
Proof.
  split.
  - destruct bounds as [|b0 [|b1 [|b2 [|b3 more]]]]; reflexivity.
  - rewrite length_take, length_app, length_replicate. lia.
Qed.

(** X9. The six geometry operations test the error tolerance against
    [undefined] only: a tolerance of 0, or any other falsy value that is
    not [undefined], is passed on as the last argument of the method. *)
Theorem maxError_is_passed_unless_undefined
    {S : Type} (rt : runtime S) (geometry other maxError : jsval) (s : S) :
  maxError <> VUndefined ->
  Geometry.centroid rt geometry maxError s
  = method rt geometry "centroid" [maxError] s
  /\ Geometry.bounds rt geometry maxError s
     = method rt geometry "bounds" [maxError] s
  /\ Geometry.area rt geometry maxError s
     = method rt geometry "area" [maxError] s
  /\ Geometry.union rt geometry other maxError s
     = method rt geometry "union" [other; maxError] s
  /\ Geometry.intersection rt geometry other maxError s
     = method rt geometry "intersection" [other; maxError] s
  /\ Geometry.difference rt geometry other maxError s
     = method rt geometry "difference" [other; maxError] s.
Proof.
  intros Hdefined.
  unfold Geometry.centroid, Geometry.bounds, Geometry.area, Geometry.union,
    Geometry.intersection, Geometry.difference, Geometry.with_maxError.
  destruct maxError; try (contradiction Hdefined; reflexivity);
    repeat split; reflexivity.
Qed.

Lemma maxError_is_passed_unless_undefined_witness :
  Geometry.centroid mock_ee (VHandle 3) (VNum 0) tt
  = method mock_ee (VHandle 3) "centroid" [VNum 0] tt.
Proof.
  refine (proj1 (maxError_is_passed_unless_undefined mock_ee (VHandle 3)
                   (VHandle 4) (VNum 0) tt _)).
  discriminate.
Defined.

(** ** Helpers that loop *)

Section Loops.
Context {S : Type} (rt : runtime S).

(** Mapping [ee.Feature] over the geometries, call by call. *)
Lemma array_map_Feature_trace geometries s :
  match array_map (fun geom => static rt "ee.Feature" [geom]) geometries s with
  | (Ok features, _, tr) =>
      length features = length geometries
      /\ tr = zip_with feature_event geometries features
  | (Err e, _, tr) =>
      exists k g features,
        geometries !! k = Some g /\ length features = k
        /\ tr = zip_with feature_event (take k geometries) features
                ++ [EvCall (Call "ee.Feature" ee [g]) (Throws e)]
  | (Hang, _, _) => False
  end.
Proof.
  revert s. induction geometries as [|g gs IH]; intros s.
  - simpl. split; reflexivity.
  - cbn [array_map]. cbv [mbind M_bind mret M_ret bind static invoke].
    destruct (ee_call rt s (Call "ee.Feature" ee [g])) as [[y | e] s1].
    2:{ exists 0, g, []. repeat split. }
    specialize (IH s1).
    destruct (array_map _ gs s1) as [[[ys | e |] s2] l2]; cbv [ret].
    + destruct IH as [Hlen ->]. split; [simpl; lia|].
      rewrite app_nil_r. reflexivity.
    + destruct IH as (k & g' & fs & Hk & Hlen & ->).
      exists (Datatypes.S k), g', (y :: fs).
      split; [exact Hk|]. split; [simpl; lia|]. reflexivity.
    + exact IH.
Qed.

(** Starting the tasks, call by call. *)
Lemma startTasks_trace tasks s :
  match Exports.startTasks rt tasks s with
  | (Ok _, _, tr) =>
      exists results,
        length results = length tasks
        /\ tr = zip_with (fun task v => EvCall (start_call task) (Returns v))
                         tasks results
  | (Err e, _, tr) =>
      exists k task results,
        tasks !! k = Some task /\ length results = k
        /\ tr = zip_with (fun task v => EvCall (start_call task) (Returns v))
                         (take k tasks) results
                ++ [EvCall (start_call task) (Throws e)]
  | (Hang, _, _) => False
  end.
Proof.
  unfold Exports.startTasks. revert s.
  induction tasks as [|task tasks IH]; intros s.
  - simpl. exists []. split; reflexivity.
  - cbn [for_of]. cbv [mbind M_bind mret M_ret bind method invoke ret].
    fold (start_call task).
    destruct (ee_call rt s (start_call task)) as [[y | e] s1].
    2:{ exists 0, task, []. repeat split. }
    specialize (IH s1). cbv [mbind M_bind mret M_ret] in IH.
    destruct (for_of _ tasks s1) as [[[[] | e |] s2] l2].
    + destruct IH as (results & Hlen & ->).
      exists (y :: results). split; [simpl; lia | reflexivity].
    + destruct IH as (k & task' & results & Hk & Hlen & ->).
      exists (Datatypes.S k), task', (y :: results).
      split; [exact Hk|]. split; [simpl; lia|]. reflexivity.
    + exact IH.
Qed.
End Loops.

(** X10. [featureCollectionFromGeometries] calls [ee.Feature] once for each
    geometry, in the order of the array, and then [ee.FeatureCollection]
    once, with exactly the features those calls returned, in the same
    order; what that last call returns or throws is the result.  When a
    call of [ee.Feature] throws, the run ends with that exception: no later
    geometry is touched and [ee.FeatureCollection] is not called. *)
Theorem featureCollectionFromGeometries_calls
    {S : Type} (rt : runtime S) (geometries : list jsval) (s : S) :
  let r := Geometry.featureCollectionFromGeometries rt geometries s in
  match outcome_of r with
  | Ok v =>
      exists features,
        length features = length geometries
        /\ trace_of r
           = zip_with feature_event geometries features
             ++ [EvCall (Call "ee.FeatureCollection" ee [VArr features])
                        (Returns v)]
  | Err e =>
      (exists features,
          length features = length geometries
          /\ trace_of r
             = zip_with feature_event geometries features
               ++ [EvCall (Call "ee.FeatureCollection" ee [VArr features])
                          (Throws e)])
      \/ (exists k g features,
            geometries !! k = Some g /\ length features = k
            /\ trace_of r
               = zip_with feature_event (take k geometries) features
                 ++ [EvCall (Call "ee.Feature" ee [g]) (Throws e)])
  | Hang => False
  end.
Proof.
  cbv zeta.
  cbv [Geometry.featureCollectionFromGeometries mbind M_bind bind].
  pose proof (array_map_Feature_trace rt geometries s) as Hmap.
  destruct (array_map _ geometries s) as [[[features | e |] s1] l1];
    cbv [outcome_of trace_of fst snd]; [|right; exact Hmap|exact Hmap].
  destruct Hmap as [Hlen ->]. cbv [static invoke].
  destruct (ee_call rt s1 (Call "ee.FeatureCollection" ee [VArr features]))
    as [[v | e] s2]; cbv [outcome_of trace_of fst snd].
  - exists features. split; [exact Hlen | reflexivity].
  - left. exists features. split; [exact Hlen | reflexivity].
Qed.

(** X11. [startTasks] calls [start] on the tasks one by one, in the order
    of the array, once each, and makes no other call.  When a call throws,
    the run ends with that exception and the tasks after it are not
    started. *)
Theorem startTasks_starts_in_order
    {S : Type} (rt : runtime S) (tasks : list jsval) (s : S) :
  let r := Exports.startTasks rt tasks s in
  match outcome_of r with
  | Ok _ =>
      exists results,
        length results = length tasks
        /\ trace_of r
           = zip_with (fun task v => EvCall (start_call task) (Returns v))
                      tasks results
  | Err e =>
      exists k task results,
        tasks !! k = Some task /\ length results = k
        /\ trace_of r
           = zip_with (fun task v => EvCall (start_call task) (Returns v))
                      (take k tasks) results
             ++ [EvCall (start_call task) (Throws e)]
  | Hang => False
  end.
Proof.
  cbv zeta. pose proof (startTasks_trace rt tasks s) as H.
  destruct (Exports.startTasks rt tasks s) as [[[[] | e |] s1] l1]; exact H.
Qed.


(** ** Helpers that chain calls *)

(** X12. [loadImageCollection] opens the collection, filters it by bounds
    and then by date, each call being made on what the call before it
    returned; the filtered collection of the last call is the result.  A
    call that throws ends the chain there with its exception. *)
Theorem loadImageCollection_chain
    {S : Type} (rt : runtime S) (collectionId geometry : jsval)
    (timeRange : Images.TimeRange) (s : S) :
  let r := Images.loadImageCollection rt collectionId geometry timeRange s in
  let opened c := EvCall (Call "ee.ImageCollection" ee [collectionId]) c in
  let bounded on c := EvCall (Call "filterBounds" on [geometry]) c in
  let dated on c :=
    EvCall (Call "filterDate" on [Images.start timeRange; Images.end_ timeRange]) c in
  match outcome_of r with
  | Ok v =>
      exists c0 c1,
        trace_of r
        = [opened (Returns c0); bounded c0 (Returns c1); dated c1 (Returns v)]
  | Err e =>
      trace_of r = [opened (Throws e)]
      \/ (exists c0, trace_of r = [opened (Returns c0); bounded c0 (Throws e)])
      \/ (exists c0 c1,
            trace_of r
            = [opened (Returns c0); bounded c0 (Returns c1); dated c1 (Throws e)])
  | Hang => False
  end.
Proof.
  cbv zeta. unfold Images.loadImageCollection. run;
    cbv [outcome_of trace_of fst snd];
    first [ do 2 eexists; reflexivity
          | left; reflexivity
          | right; left; eexists; reflexivity
          | right; right; do 2 eexists; reflexivity ].
Qed.

(** X13. [filterByCloudCover] builds the filter with [ee.Filter.lte] and
    hands exactly the filter that call returned to [collection.filter].
    The property it compares is 'CLOUD_COVER' when the caller gives none,
    and otherwise the caller's, whatever it is.  When [ee.Filter.lte]
    throws, the collection is not touched. *)
Theorem filterByCloudCover_chain
    {S : Type} (rt : runtime S) (collection maxCloudCover propertyName : jsval)
    (s : S) :
  let r := Images.filterByCloudCover rt collection maxCloudCover propertyName s in
  let name :=
    match propertyName with
    | VUndefined => VStr "CLOUD_COVER"
    | given => given
    end in
  let built c := EvCall (Call "ee.Filter.lte" ee [name; maxCloudCover]) c in
  match outcome_of r with
  | Ok v =>
      exists filter,
        trace_of r
        = [built (Returns filter);
           EvCall (Call "filter" collection [filter]) (Returns v)]
  | Err e =>
      trace_of r = [built (Throws e)]
      \/ exists filter,
           trace_of r
           = [built (Returns filter);
              EvCall (Call "filter" collection [filter]) (Throws e)]
  | Hang => False
  end.
Proof.
  cbv zeta. unfold Images.filterByCloudCover. run;
    cbv [outcome_of trace_of fst snd];
    first [ eexists; reflexivity
          | left; reflexivity
          | right; eexists; reflexivity ].
Qed.

(** ** Every helper stops at the first exception *)

Lemma forallb_removelast {A} (p : A -> bool) l :
  forallb p l = true -> forallb p (removelast l) = true.
Proof.
  induction l as [|x [|y l] IH]; [reflexivity | reflexivity |].
  intros [Hx Hl]%andb_prop. cbn [removelast]. cbn [forallb].
  rewrite Hx. exact (IH Hl).
Qed.

Lemma zip_with_succeeded {A} (f : A -> jsval -> event) xs ys :
  (forall x y, succeeded (f x y) = true) ->
  forallb succeeded (zip_with f xs ys) = true.
Proof.
  intros Hf. revert ys. induction xs as [|x xs IH]; intros [|y ys];
    try reflexivity.
  cbn [zip_with forallb]. rewrite Hf. apply IH.
Qed.

(** [clipCollection] is different: the library may call its function
    again after a call of [clip] has thrown.  Here [clip] fails on both
    images and [map] returns all the same. *)
Example clipCollection_goes_on_after_an_exception :
  Images.clipCollection mock_mapping (VHandle 5) (VHandle 6) tt
  = (Ok (VHandle 7), tt,
     [EvCall (Call "clip" (VHandle 8) [VHandle 6]) (Throws (VError "clip failed"));
      EvCall (Call "clip" (VHandle 9) [VHandle 6]) (Throws (VError "clip failed"));
      EvCall (Call "map" (VHandle 5) [Images.clip_with (VHandle 6)])
             (Returns (VHandle 7))]).
Proof. reflexivity. Qed.

(** X14. A helper that hands the library no function of its own (every
    helper but [clipCollection]) makes no call of the library after one has
    thrown: in every run each call but the last returned normally, and when
    the helper returns, the last one did too. *)
Theorem helper_stops_at_first_exception
    {S : Type} (rt : runtime S) (h : helper_app) (s : S) :
  hands_over_a_function h = false ->
  let r := run_helper rt h s in
  forallb succeeded (removelast (trace_of r)) = true
  /\ (forall v, outcome_of r = Ok v -> forallb succeeded (trace_of r) = true).
Proof.
  intros Hown. cbv zeta.
  destruct h; try discriminate Hown; clear Hown.
  all: try (unfold_helpers; run; cbv [outcome_of trace_of fst snd];
            (split; [reflexivity | intros ? ?; first [discriminate | reflexivity]])).
  - destruct maxError; unfold_helpers; run; cbv [outcome_of trace_of fst snd];
      (split; [reflexivity | intros ? ?; first [discriminate | reflexivity]]).
  - destruct maxError; unfold_helpers; run; cbv [outcome_of trace_of fst snd];
      (split; [reflexivity | intros ? ?; first [discriminate | reflexivity]]).
  - destruct maxError; unfold_helpers; run; cbv [outcome_of trace_of fst snd];
      (split; [reflexivity | intros ? ?; first [discriminate | reflexivity]]).
  - destruct maxError; unfold_helpers; run; cbv [outcome_of trace_of fst snd];
      (split; [reflexivity | intros ? ?; first [discriminate | reflexivity]]).
  - destruct maxError; unfold_helpers; run; cbv [outcome_of trace_of fst snd];
      (split; [reflexivity | intros ? ?; first [discriminate | reflexivity]]).
  - destruct maxError; unfold_helpers; run; cbv [outcome_of trace_of fst snd];
      (split; [reflexivity | intros ? ?; first [discriminate | reflexivity]]).
  - unfold_helpers. destruct (truthy properties); run;
      cbv [outcome_of trace_of fst snd];
      (split; [reflexivity | intros ? ?; first [discriminate | reflexivity]]).
  - (* featureCollectionFromGeometries *)
    cbv [run_helper Geometry.featureCollectionFromGeometries mbind M_bind bind].
    pose proof (array_map_Feature_trace rt geometries s) as Hmap.
    destruct (array_map _ geometries s) as [[[features | e |] s1] l1];
      cbv [outcome_of trace_of fst snd]; [| |destruct Hmap].
    + destruct Hmap as [_ ->]. cbv [static invoke].
      destruct (ee_call rt s1 (Call "ee.FeatureCollection" ee [VArr features]))
        as [[v | e] s2]; cbv [outcome_of trace_of fst snd];
        rewrite removelast_last, ?forallb_app,
          zip_with_succeeded by reflexivity;
        (split; [reflexivity | intros ? ?; first [discriminate | reflexivity]]).
    + destruct Hmap as (k & g & fs & _ & _ & ->).
      rewrite removelast_last, zip_with_succeeded by reflexivity.
      split; [reflexivity | discriminate].
  - unfold_helpers. destruct (truthy reducer); run;
      cbv [outcome_of trace_of fst snd];
      (split; [reflexivity | intros ? ?; first [discriminate | reflexivity]]).
  - unfold_helpers. destruct (truthy newNames); run;
      cbv [outcome_of trace_of fst snd];
      (split; [reflexivity | intros ? ?; first [discriminate | reflexivity]]).
  - (* startTasks *)
    pose proof (startTasks_trace rt tasks s) as H.
    cbv [run_helper mbind M_bind bind].
    destruct (Exports.startTasks rt tasks s) as [[[[] | e |] s1] l1];
      cbv [outcome_of trace_of fst snd mret M_ret ret] in *.
    + destruct H as (results & _ & ->). rewrite app_nil_r.
      assert (Hall : forallb succeeded
                       (zip_with (fun task v => EvCall (start_call task) (Returns v))
                                 tasks results) = true)
        by (apply zip_with_succeeded; reflexivity).
      split; [apply forallb_removelast; exact Hall | intros; exact Hall].
    + split; [|discriminate].
      destruct H as (k & task & results & _ & _ & ->).
      rewrite removelast_last. apply zip_with_succeeded; reflexivity.
    + destruct H.
Qed.

Lemma helper_stops_at_first_exception_witness :
  forallb succeeded
    (removelast
       (trace_of (run_helper mock_ee
                    (CollectionToList (VHandle 5)) tt))) = true.
Proof.
  refine (proj1 (helper_stops_at_first_exception mock_ee
                   (CollectionToList (VHandle 5)) tt _)).
  reflexivity.
Defined.


(** X15. [collectionToList] asks the collection for its size and then asks
    the same collection for a list of exactly that many elements: the count
    given to [toList] is what [size] returned.  When [size] throws,
    [toList] is not called. *)
Theorem collectionToList_chain
    {S : Type} (rt : runtime S) (collection : jsval) (s : S) :
  let r := Images.collectionToList rt collection s in
  let sized c := EvCall (Call "size" collection []) c in
  match outcome_of r with
  | Ok v =>
      exists count,
        trace_of r
        = [sized (Returns count);
           EvCall (Call "toList" collection [count]) (Returns v)]
  | Err e =>
      trace_of r = [sized (Throws e)]
      \/ exists count,
           trace_of r
           = [sized (Returns count);
              EvCall (Call "toList" collection [count]) (Throws e)]
  | Hang => False
  end.
Proof.
  cbv zeta. unfold Images.collectionToList. run;
    cbv [outcome_of trace_of fst snd];
    first [ eexists; reflexivity
          | left; reflexivity
          | right; eexists; reflexivity ].
Qed.

(** ** The export helpers for tables and assets *)

(** X16. [exportTableToDrive] and [exportTableToCloudStorage] make one
    call of the library's export function, with one flat record, and pass
    back what it returns.  The record always holds the collection, the
    description (and the bucket) and a file format, which is 'CSV' when the
    options give none; it holds the folder (or the file name prefix) and
    the selectors when they are truthy and not otherwise; it holds nothing
    else. *)
Theorem table_export_records
    {S : Type} (rt : runtime S) (collection : jsval)
    (options : gmap string jsval) (s : S) :
  let drive := Exports.tableToDrive_options collection options in
  let cloud := Exports.tableToCloudStorage_options collection options in
  let fileFormat :=
    match get options "fileFormat" with
    | VUndefined => VStr "CSV"
    | given => given
    end in
  ((exists reply s1,
       ee_call rt s (Call "ee.batch.Export.table.toDrive" ee [VObj drive])
       = (reply, s1)
       /\ Exports.exportTableToDrive rt collection options s
          = (match reply with Returns v => Ok v | Throws e => Err e end, s1,
             [EvCall (Call "ee.batch.Export.table.toDrive" ee [VObj drive]) reply]))
   /\ drive !! "collection" = Some collection
   /\ drive !! "description" = Some (get options "description")
   /\ drive !! "fileFormat" = Some fileFormat
   /\ (forall k,
         In k ["folder"; "selectors"] ->
         drive !! k = if truthy (get options k) then Some (get options k) else None)
   /\ (forall k v,
         drive !! k = Some v ->
         In k ["collection"; "description"; "fileFormat"; "folder"; "selectors"]))
  /\ ((exists reply s1,
          ee_call rt s (Call "ee.batch.Export.table.toCloudStorage" ee [VObj cloud])
          = (reply, s1)
          /\ Exports.exportTableToCloudStorage rt collection options s
             = (match reply with Returns v => Ok v | Throws e => Err e end, s1,
                [EvCall (Call "ee.batch.Export.table.toCloudStorage" ee [VObj cloud])
                        reply]))
      /\ cloud !! "collection" = Some collection
      /\ cloud !! "description" = Some (get options "description")
      /\ cloud !! "bucket" = Some (get options "bucket")
      /\ cloud !! "fileFormat" = Some fileFormat
      /\ (forall k,
            In k ["fileNamePrefix"; "selectors"] ->
            cloud !! k = if truthy (get options k) then Some (get options k) else None)
      /\ (forall k v,
            cloud !! k = Some v ->
            In k ["collection"; "description"; "bucket"; "fileFormat";
                  "fileNamePrefix"; "selectors"])).
Proof.
  cbv zeta. split.
  - split; [apply static_record_run|].
    split; [unfold Exports.tableToDrive_options; lookup_record; reflexivity|].
    split; [unfold Exports.tableToDrive_options; lookup_record; reflexivity|].
    split; [unfold Exports.tableToDrive_options; lookup_record; reflexivity|].
    split; [apply tableToDrive_lookup|].
    intros k v H. unfold Exports.tableToDrive_options in H. record_keys H.
  - split; [apply static_record_run|].
    split; [unfold Exports.tableToCloudStorage_options; lookup_record; reflexivity|].
    split; [unfold Exports.tableToCloudStorage_options; lookup_record; reflexivity|].
    split; [unfold Exports.tableToCloudStorage_options; lookup_record; reflexivity|].
    split; [unfold Exports.tableToCloudStorage_options; lookup_record; reflexivity|].
    split; [apply tableToCloudStorage_lookup|].
    intros k v H. unfold Exports.tableToCloudStorage_options in H. record_keys H.
Qed.

(** X17. The exports to an asset.  [exportImageToAsset] hands over one
    record that always holds the image, the description and the asset id,
    as given, holds the scale, the CRS, the pixel limit and the region when
    they are truthy, and holds nothing else: a file format, a folder or
    format options in the options never reach the library.
    [exportTableToAsset] hands over a record of exactly the collection, the
    description and the asset id.  Both pass back what the call returns. *)
Theorem asset_export_records
    {S : Type} (rt : runtime S) (subject description assetId : jsval)
    (options : gmap string jsval) (s : S) :
  let image := Exports.imageToAsset_options subject description assetId options in
  let table := Exports.tableToAsset_options subject description assetId in
  ((exists reply s1,
       ee_call rt s (Call "ee.batch.Export.image.toAsset" ee [VObj image])
       = (reply, s1)
       /\ Exports.exportImageToAsset rt subject description assetId options s
          = (match reply with Returns v => Ok v | Throws e => Err e end, s1,
             [EvCall (Call "ee.batch.Export.image.toAsset" ee [VObj image]) reply]))
   /\ image !! "image" = Some subject
   /\ image !! "description" = Some description
   /\ image !! "assetId" = Some assetId
   /\ (forall k,
         In k ["scale"; "crs"; "maxPixels"; "region"] ->
         image !! k = if truthy (get options k) then Some (get options k) else None)
   /\ (forall k v,
         image !! k = Some v ->
         In k ["image"; "description"; "assetId"; "scale"; "crs"; "maxPixels";
               "region"]))
  /\ ((exists reply s1,
          ee_call rt s (Call "ee.batch.Export.table.toAsset" ee [VObj table])
          = (reply, s1)
          /\ Exports.exportTableToAsset rt subject description assetId s
             = (match reply with Returns v => Ok v | Throws e => Err e end, s1,
                [EvCall (Call "ee.batch.Export.table.toAsset" ee [VObj table])
                        reply]))
      /\ table !! "collection" = Some subject
      /\ table !! "description" = Some description
      /\ table !! "assetId" = Some assetId
      /\ (forall k v,
            table !! k = Some v -> In k ["collection"; "description"; "assetId"])).
Proof.
  cbv zeta. split.
  - split; [apply static_record_run|].
    split; [unfold Exports.imageToAsset_options; lookup_record; reflexivity|].
    split; [unfold Exports.imageToAsset_options; lookup_record; reflexivity|].
    split; [unfold Exports.imageToAsset_options; lookup_record; reflexivity|].
    split; [apply imageToAsset_lookup|].
    intros k v H. unfold Exports.imageToAsset_options in H. record_keys H.
  - split; [apply static_record_run|].
    split; [unfold Exports.tableToAsset_options; lookup_record; reflexivity|].
    split; [unfold Exports.tableToAsset_options; lookup_record; reflexivity|].
    split; [unfold Exports.tableToAsset_options; lookup_record; reflexivity|].
    intros k v H. unfold Exports.tableToAsset_options in H. record_keys H.
Qed.


(** * The second text of the client module *)

Section Earlier.
Context {S : Type} (rt : runtime S).

Lemma pure_earlier_parse keyInput :
  pure (ClientEarlier.parseServiceAccountKey rt keyInput).
Proof.
  destruct keyInput; try apply pure_ret.
  apply pure_try_catch; [|intros; apply pure_throw].
  apply pure_bind.
  { destruct (JSON_parse rt s); [apply pure_ret | apply pure_throw]. }
  intros parsed. repeat (apply pure_bind; [apply pure_get_prop | intros ?]).
  apply pure_ret.
Qed.

(** The authentication step of the second text never calls
    [ee.initialize]. *)
Lemma earlier_authenticate_no_initialize options s :
  count (is_call_to "ee.initialize")
        (trace_of (ClientEarlier.authenticate rt options s)) = 0.
Proof.
  unfold ClientEarlier.authenticate.
  destruct (truthy (get options "privateKeyJson")).
  - unfold mbind, M_bind.
    destruct (bind_pure_cases
                (ClientEarlier.parseServiceAccountKey rt (get options "privateKeyJson"))
                (fun credentials =>
                   bind (get_prop credentials "email")
                     (fun email =>
                        bind (get_prop credentials "privateKey")
                          (fun privateKey =>
                             await_callback rt
                               (Client.private_key_call
                                  {[ "client_email" := email;
                                     "private_key" := privateKey ]}))))
                s (pure_earlier_parse _))
      as [(e & _ & ->) | (key & _ & ->)]; [reflexivity|].
    destruct (bind_pure_cases (get_prop key "email")
                (fun email =>
                   bind (get_prop key "privateKey")
                     (fun privateKey =>
                        await_callback rt
                          (Client.private_key_call
                             {[ "client_email" := email;
                                "private_key" := privateKey ]})))
                s (pure_get_prop key "email"))
      as [(e & _ & ->) | (email & _ & ->)]; [reflexivity|].
    destruct (bind_pure_cases (get_prop key "privateKey")
                (fun privateKey =>
                   await_callback rt
                     (Client.private_key_call
                        {[ "client_email" := email;
                           "private_key" := privateKey ]}))
                s (pure_get_prop key "privateKey"))
      as [(e & _ & ->) | (privateKey & _ & ->)]; [reflexivity|].
    run; reflexivity.
  - destruct (truthy (get options "tokenRetriever")); [|reflexivity].
    destruct (get options "tokenRetriever"); run; reflexivity.
Qed.

(** Two awaited steps and [return ee]. *)
Lemma two_steps (first second : M S unit) s :
  (first;; second;; ret ee) s
  = match first s with
    | (Ok _, s1, l1) =>
        match second s1 with
        | (Ok _, s2, l2) => (Ok ee, s2, l1 ++ l2)
        | (Err e, s2, l2) => (Err e, s2, l1 ++ l2)
        | (Hang, s2, l2) => (Hang, s2, l1 ++ l2)
        end
    | (Err e, s1, l1) => (Err e, s1, l1)
    | (Hang, s1, l1) => (Hang, s1, l1)
    end.
Proof.
  cbv [mbind M_bind bind mret M_ret ret].
  destruct (first s) as [[[u | e |] s1] l1]; try reflexivity.
  destruct (second s1) as [[[u' | e |] s2] l2]; try reflexivity.
  rewrite app_nil_r. reflexivity.
Qed.

(** The record of initialization options of the second text. *)
Lemma earlier_options_or_undefined project baseUrl :
  ClientEarlier.options_or_undefined
    (set_if_truthy "baseUrl" baseUrl (set_if_truthy "project" project ∅))
  = if truthy project || truthy baseUrl
    then VObj (set_if_truthy "baseUrl" baseUrl (set_if_truthy "project" project ∅))
    else VUndefined.
Proof.
  unfold ClientEarlier.options_or_undefined, set_if_truthy, set.
  destruct (truthy project), (truthy baseUrl); cbn [orb];
    rewrite ?map_size_insert, ?lookup_insert_ne, ?lookup_empty, ?map_size_empty
      by discriminate;
    reflexivity.
Qed.
End Earlier.

(** X18. In the second text of the client module, [initEarthEngine] always
    gives [ee.initialize] [null] for the base URL and puts the options in
    its last argument: [undefined] when the project and the base URL are
    both falsy, and otherwise a record that holds each of the two that is
    truthy, exactly as the caller gave it, and nothing else. *)
Theorem earlier_initialize_options
    {S : Type} (rt : runtime S) (options : gmap string jsval) (s : S)
    (ev : event) :
  In ev (trace_of (ClientEarlier.initEarthEngine rt options s)) ->
  is_call_to "ee.initialize" ev = true ->
  let project := get options "project" in
  let baseUrl := get options "baseUrl" in
  exists reply last_argument,
    ev = EvCallback
           (Call "ee.initialize" ee
                 [VNull; VNull; on_success; on_failure; VNull; last_argument])
           reply
    /\ if truthy project || truthy baseUrl
       then exists record,
              last_argument = VObj record
              /\ record !! "project"
                 = (if truthy project then Some project else None)
              /\ record !! "baseUrl"
                 = (if truthy baseUrl then Some baseUrl else None)
              /\ forall k v, record !! k = Some v -> In k ["project"; "baseUrl"]
       else last_argument = VUndefined.
Proof.
  cbv zeta. unfold ClientEarlier.initEarthEngine. cbv zeta.
  rewrite two_steps.
  pose proof (earlier_authenticate_no_initialize rt options s) as Ha0.
  destruct (ClientEarlier.authenticate rt options s) as [[[[] | e1 |] s1] l1];
    cbv [trace_of outcome_of snd fst] in Ha0 |- *;
    try (intros Hin Hev; rewrite (count_zero_not_in _ _ _ Ha0 Hin) in Hev;
         discriminate).
  unfold ClientEarlier.initialize_call. rewrite earlier_options_or_undefined.
  assert (Hrecord :
            if truthy (get options "project") || truthy (get options "baseUrl")
            then exists record,
                   VObj (set_if_truthy "baseUrl" (get options "baseUrl")
                           (set_if_truthy "project" (get options "project") ∅))
                   = VObj record
                   /\ record !! "project"
                      = (if truthy (get options "project")
                         then Some (get options "project") else None)
                   /\ record !! "baseUrl"
                      = (if truthy (get options "baseUrl")
                         then Some (get options "baseUrl") else None)
                   /\ forall k v, record !! k = Some v -> In k ["project"; "baseUrl"]
            else True).
  { destruct (truthy (get options "project") || truthy (get options "baseUrl"));
      [|exact I].
    eexists. split; [reflexivity|].
    split; [lookup_record; reflexivity|].
    split; [lookup_record; reflexivity|].
    intros k v H.
    apply lookup_set_if_truthy_Some in H as [<- | H]; [simpl; tauto|].
    apply lookup_set_if_truthy_Some in H as [<- | H]; [simpl; tauto|].
    rewrite lookup_empty in H. discriminate. }
  revert Hrecord.
  destruct (truthy (get options "project") || truthy (get options "baseUrl"));
    intros Hrecord; run; cbv [trace_of snd];
    (intros [Hin | Hin]%in_app_or Hev;
     [ rewrite (count_zero_not_in _ _ _ Ha0 Hin) in Hev; discriminate | ]);
    cbv [In] in Hin; destruct Hin as [<- | []];
    do 2 eexists; (split; [reflexivity|]);
    first [exact Hrecord | reflexivity].
Qed.

Lemma earlier_initialize_options_witness :
  exists reply last_argument,
    EvCallback
      (ClientEarlier.initialize_call {[ "project" := VStr " my-project " ]})
      CbSuccess
    = EvCallback
        (Call "ee.initialize" ee
              [VNull; VNull; on_success; on_failure; VNull; last_argument]) reply
    /\ exists record,
         last_argument = VObj record
         /\ record !! "project" = Some (VStr " my-project ")
         /\ record !! "baseUrl" = None
         /\ forall k v, record !! k = Some v -> In k ["project"; "baseUrl"].
Proof.
  refine (earlier_initialize_options mock_ee
            {[ "project" := VStr " my-project "; "baseUrl" := VStr "" ]} tt
            (EvCallback
               (ClientEarlier.initialize_call {[ "project" := VStr " my-project " ]})
               CbSuccess) _ _).
  - vm_compute. left. reflexivity.
  - reflexivity.
Defined.
